(** * ModernCppExamples: the Python helper scripts

    A shallow embedding of the three Python scripts of the repository,

    - [SearchAnagramsFromDictionary.py]  (module [Anagram]),
    - [scripts/update_documentation.py]  (module [UpdateDocumentation]),
    - [test_pybind.py]                   (module [TestPybind]),

    over a small model of the Python values they use (module [Py]),
    followed by the properties of the scripts that the specification
    states.  The first half of the file holds the definitions, the
    second half the proofs. *)

From Stdlib Require Import ZArith NArith List String Ascii Lia Permutation.
From stdpp Require Import base option list gmap sorting.

Local Open Scope Z_scope.

(* ===================================================================== *)
(** * Part I: definitions                                                 *)
(* ===================================================================== *)

(** ** Python values *)

Module Py.

(** A Python [str] is a sequence of Unicode code points. *)
Definition char := N.
Definition str := list char.

(** Source literals.  The Python sources are UTF-8 files; a literal is
    written here as it is there and [u] decodes it into code points. *)
Fixpoint utf8_go (acc : N) (pending : nat) (bs : list N) : str :=
  match bs with
  | [] => []
  | b :: bs' =>
      match pending with
      | S p =>
          let acc' := N.lor (N.shiftl acc 6) (N.land b 63) in
          match p with
          | O => acc' :: utf8_go 0%N 0 bs'
          | S _ => utf8_go acc' p bs'
          end
      | O =>
          if (b <? 128)%N then b :: utf8_go 0%N 0 bs'
          else if (b <? 224)%N then utf8_go (N.land b 31) 1 bs'
          else if (b <? 240)%N then utf8_go (N.land b 15) 2 bs'
          else utf8_go (N.land b 7) 3 bs'
      end
  end.

Definition u (s : string) : str :=
  utf8_go 0%N 0 (List.map N_of_ascii (list_ascii_of_string s)).

(** The double quote, which a literal of this file cannot hold. *)
Definition dquote : str := [34%N].

(** [sep.join(parts)] *)
Fixpoint join (sep : str) (parts : list str) : str :=
  match parts with
  | [] => []
  | [p] => p
  | p :: ps => p ++ sep ++ join sep ps
  end.

(** [s * n] for a string and a count: ["=" * 70]. *)
Fixpoint repeat_str (s : str) (n : nat) : str :=
  match n with
  | O => []
  | S n' => s ++ repeat_str s n'
  end.

(** Comparison of strings: lexicographic on code points. *)
Fixpoint str_leb (a b : str) : bool :=
  match a, b with
  | [], _ => true
  | _ :: _, [] => false
  | x :: a', y :: b' => if (x <? y)%N then true else if (y <? x)%N then false else str_leb a' b'
  end.

Definition str_le (a b : str) : Prop := str_leb a b = true.
Definition str_lt (a b : str) : Prop := str_leb a b = true /\ a <> b.

(** [sorted(xs, key=key)]: Python's sort is stable, and so is insertion
    from the right; with [leb] total the result is the one stable
    rearrangement of [xs] into non-decreasing keys. *)
Section Sorting.
Context {A K : Type} (key : A -> K) (leb : K -> K -> bool).

Fixpoint insert_by (x : A) (l : list A) : list A :=
  match l with
  | [] => [x]
  | y :: l' => if leb (key x) (key y) then x :: y :: l' else y :: insert_by x l'
  end.

Fixpoint sorted_by (l : list A) : list A :=
  match l with
  | [] => []
  | x :: l' => insert_by x (sorted_by l')
  end.

(** The order the result is in: keys do not decrease. *)
Definition key_le (x y : A) : Prop := leb (key x) (key y) = true.

End Sorting.

Definition sorted {A : Type} (leb : A -> A -> bool) : list A -> list A :=
  sorted_by (fun x => x) leb.

(** [sorted(x)] for a string [x]: the list of its characters, as
    one-character strings, in code point order. *)
Definition sorted_chars (x : str) : list str :=
  List.map (fun c => [c]) (sorted N.leb x).

(** [s.startswith(p)], [s.endswith(p)] *)
Fixpoint startswith (s p : str) {struct p} : bool :=
  match p, s with
  | [], _ => true
  | _ :: _, [] => false
  | c :: p', d :: s' => if (c =? d)%N then startswith s' p' else false
  end.

Definition endswith (s p : str) : bool := startswith (rev s) (rev p).

(** [s.find(sub)]: the lowest index at which [sub] occurs in [s], or -1. *)
Fixpoint find_from (i : nat) (s sub : str) : Z :=
  if startswith s sub then Z.of_nat i
  else match s with
       | [] => -1
       | _ :: s' => find_from (S i) s' sub
       end.

Definition find (s sub : str) : Z := find_from 0 s sub.

(** What [find] is to compute: [sub] occurs in [s] at index [k] when [s]
    splits into [k] characters, [sub], and a rest; the first occurrence
    is the one of lowest index. *)
Definition occurs_at (s sub : str) (k : nat) : Prop :=
  exists pre post, s = pre ++ sub ++ post /\ length pre = k.
Definition occurs (s sub : str) : Prop := exists k, occurs_at s sub k.
Definition first_occurrence (s sub : str) (k : nat) : Prop :=
  occurs_at s sub k /\ forall j, occurs_at s sub j -> (k <= j)%nat.

(** Normalisation of a slice bound: a negative bound counts from the end,
    and every bound is clipped to the length. *)
Definition slice_bound (len : nat) (i : Z) : nat :=
  if i <? 0 then Z.to_nat (Z.of_nat len + i) else Nat.min (Z.to_nat i) len.

(** [s[:i]] and [s[i:]] *)
Definition slice_to {A : Type} (s : list A) (i : Z) : list A :=
  take (slice_bound (length s) i) s.
Definition slice_from {A : Type} (s : list A) (i : Z) : list A :=
  drop (slice_bound (length s) i) s.

(** [str(n)] for a non-negative integer. *)
Definition digit (n : nat) : char := (48 + N.of_nat n)%N.

Fixpoint str_of_nat_go (fuel n : nat) (acc : str) : str :=
  match fuel with
  | O => acc
  | S fuel' =>
      let acc' := digit (n mod 10) :: acc in
      if (n <? 10)%nat then acc' else str_of_nat_go fuel' (n / 10) acc'
  end.

Definition str_of_nat (n : nat) : str := str_of_nat_go (S n) n [].

(** A [dict] keeps its keys in insertion order. *)
Section Dict.
Context {K V : Type} `{EqDecision K}.

Definition dict := list (K * V).

Fixpoint dict_get (d : dict) (k : K) : option V :=
  match d with
  | [] => None
  | (k', v) :: d' => if decide (k = k') then Some v else dict_get d' k
  end.

(** [d[k] = v]: a key that is present keeps its place. *)
Fixpoint dict_set (d : dict) (k : K) (v : V) : dict :=
  match d with
  | [] => [(k, v)]
  | (k', v') :: d' =>
      if decide (k = k') then (k', v) :: d' else (k', v') :: dict_set d' k v
  end.

Definition dict_keys (d : dict) : list K := List.map fst d.

End Dict.
Arguments dict : clear implicits.

(** [d.setdefault(k, []).append(x)]: the list stored under [k], created
    empty when [k] is new, is extended in place. *)
Fixpoint setdefault_append {K X : Type} `{EqDecision K}
    (d : dict K (list X)) (k : K) (x : X) : dict K (list X) :=
  match d with
  | [] => [(k, [x])]
  | (k', g) :: d' =>
      if decide (k = k') then (k', g ++ [x]) :: d'
      else (k', g) :: setdefault_append d' k x
  end.

(** [repr] of a string.  The quote is the single one unless the string
    holds a single quote and no double quote.  The quote and the backslash
    are escaped; tab, newline and carriage return have their letters; the
    other controls and 127 are written as [\xNN].  The other ASCII
    characters are kept.  A code point from 128 on is kept when
    [str.isprintable] holds of it, which is what [printable] tells, and
    is otherwise written as [\xNN], [\uNNNN] or [\UNNNNNNNN], whichever
    is the shortest that fits. *)
Definition hex_digit (n : N) : char :=
  if (n <? 10)%N then (48 + n)%N else (87 + n)%N.

Fixpoint hex (digits : nat) (n : N) (acc : str) : str :=
  match digits with
  | O => acc
  | S digits' => hex digits' (n / 16)%N (hex_digit (n mod 16) :: acc)
  end.

Definition repr_char (printable : char -> bool) (q c : char) : str :=
  if (c =? q)%N || (c =? 92)%N then [92%N; c]
  else if (c =? 10)%N then u "\n"
  else if (c =? 13)%N then u "\r"
  else if (c =? 9)%N then u "\t"
  else if (c <? 32)%N || (c =? 127)%N then u "\x" ++ hex 2 c []
  else if (c <? 127)%N then [c]
  else if printable c then [c]
  else if (c <? 256)%N then u "\x" ++ hex 2 c []
  else if (c <? 65536)%N then u "\u" ++ hex 4 c []
  else u "\U" ++ hex 8 c [].

Definition repr_str (printable : char -> bool) (s : str) : str :=
  let q := if bool_decide (39%N ∈ s) && negb (bool_decide (34%N ∈ s))
           then 34%N else 39%N in
  [q] ++ concat (List.map (repr_char printable q) s) ++ [q].

(** The table for strings that are known to be ASCII: [repr] does not
    consult it for them. *)
Definition no_table : char -> bool := fun _ => false.

(** [str] of a list of strings, which is its [repr]. *)
Definition str_of_list (printable : char -> bool) (l : list str) : str :=
  u "[" ++ join (u ", ") (List.map (repr_str printable) l) ++ u "]".

(** The newline character, [chr(10)]. *)
Definition nl : str := [10%N].

(** Text mode.  A file opened with [open(path, mode, encoding='utf-8')]
    has its line ends translated: on reading, a carriage return, alone
    or followed by a newline, comes out as one newline; on writing, every
    newline goes out as [os.linesep]. *)
Fixpoint universal_newlines_go (after_cr : bool) (raw : str) : str :=
  match raw with
  | [] => []
  | c :: raw' =>
      if (c =? 13)%N then 10%N :: universal_newlines_go true raw'
      else if (c =? 10)%N && after_cr then universal_newlines_go false raw'
      else c :: universal_newlines_go false raw'
  end.

Definition universal_newlines (raw : str) : str :=
  universal_newlines_go false raw.

Definition write_newlines (linesep : str) (text : str) : str :=
  concat (List.map (fun c => if (c =? 10)%N then linesep else [c]) text).

(** Exceptions, as far as the scripts tell them apart.  [SystemExit] is
    not an [Exception]: an [except Exception] clause lets it through. *)
Inductive exn :=
| FileNotFoundError (filename : str)
| IndexError (msg : str)
| ImportError (msg : str)
| OtherError (msg : str)
| SystemExit (code : Z).

Definition is_Exception (e : exn) : bool :=
  match e with SystemExit _ => false | _ => true end.

Definition is_ImportError (e : exn) : bool :=
  match e with ImportError _ => true | _ => false end.

Inductive result (A : Type) :=
| Ok (a : A)
| Raise (e : exn).
Arguments Ok {A} a.
Arguments Raise {A} e.

(** A computation over a state [S] that returns or raises. *)
Definition M (S A : Type) : Type := S -> result A * S.

Definition ret {S A} (a : A) : M S A := fun s => (Ok a, s).
Definition raise {S A} (e : exn) : M S A := fun s => (Raise e, s).
Definition bind {S A B} (m : M S A) (f : A -> M S B) : M S B :=
  fun s => match m s with
           | (Ok a, s') => f a s'
           | (Raise e, s') => (Raise e, s')
           end.

(** [try: body  except <handles>: handler] *)
Definition try_except {S A} (body : M S A) (handles : exn -> bool)
    (handler : exn -> M S A) : M S A :=
  fun s => match body s with
           | (Ok a, s') => (Ok a, s')
           | (Raise e, s') => if handles e then handler e s' else (Raise e, s')
           end.

Definition get {S} : M S S := fun s => (Ok s, s).
Definition modify {S} (f : S -> S) : M S unit := fun s => (Ok tt, f s).

(** [for x in l: body] *)
Fixpoint for_each {S A : Type} (l : list A) (body : A -> M S unit) : M S unit :=
  match l with
  | [] => ret tt
  | x :: l' => bind (body x) (fun _ => for_each l' body)
  end.

(** [str(e)] for a caught exception. *)
Definition str_of_exn (printable : char -> bool) (e : exn) : str :=
  match e with
  | FileNotFoundError filename =>
      u "[Errno 2] No such file or directory: " ++ repr_str printable filename
  | IndexError msg | ImportError msg | OtherError msg => msg
  | SystemExit code => if code <? 0 then u "-" ++ str_of_nat (Z.to_nat (- code))
                       else str_of_nat (Z.to_nat code)
  end.

(** The exit status of the interpreter: 0 when the program runs to its
    end, the code of a [SystemExit], 1 for any other exception that
    nothing caught. *)
Definition exit_status {A} (r : result A) : Z :=
  match r with
  | Ok _ => 0
  | Raise (SystemExit code) => code
  | Raise _ => 1
  end.

End Py.

Declare Scope py_scope.
Delimit Scope py_scope with py.
Notation "x <- m ;; k" := (Py.bind m (fun x => k))
  (at level 100, m at next level, right associativity) : py_scope.
Notation "m ;;; k" := (Py.bind m (fun _ => k))
  (at level 100, right associativity) : py_scope.


(* ===================================================================== *)
(** ** SearchAnagramsFromDictionary.py                                    *)
(* ===================================================================== *)

Module Anagram.
Import Py.
Local Open Scope py_scope.

Definition mDictionary : list str :=
  List.map u
    ["act"; "ant"; "art"; "bat"; "bet"; "boss"; "cat";
     "cap"; "cop"; "dear"; "dog"; "dip";
     "ear"; "end"; "eel"; "fad"; "fat"; "fog"; "gap"; "god";
     "hat"; "hit"; "hot"; "ink"; "irk";
     "jot"; "jab"; "lap"; "lip"; "lot"; "man"; "nan"; "nat";
     "net"; "pat"; "pet"; "tap"; "tar"; "ten";
     "rat"; "woo"; "yoo"; "zoo"]%string.

(** [''.join(sorted(x))]: the sorted-character signature of a word. *)
Definition signature (x : str) : str := join [] (sorted_chars x).

(** [{x: ''.join(sorted(x)) for x in words}]: one entry is set for each
    word, in the order of the list. *)
Definition pairs_step (d : dict str str) (x : str) : dict str str :=
  dict_set d x (signature x).

Definition build_Pairs (words : list str) : dict str str :=
  fold_left pairs_step words [].

(** The loop that fills [Anagrams], and its body:
    [for k, v in pairs.items(): if v in words: Anagrams.setdefault(v, []).append(k)] *)
Definition anagrams_step (words : list str) (A : dict str (list str))
    (kv : str * str) : dict str (list str) :=
  if bool_decide (kv.2 ∈ words) then setdefault_append A kv.2 kv.1 else A.

Definition build_Anagrams (words : list str) (pairs : dict str str)
    : dict str (list str) :=
  fold_left (anagrams_step words) pairs [].

Definition Pairs : dict str str := build_Pairs mDictionary.
Definition Anagrams : dict str (list str) := build_Anagrams mDictionary Pairs.

(** Standard output: the text of each [print] call, in order. *)
Definition print_ (line : str) : M (list str) unit :=
  fun out => (Ok tt, out ++ [line]).

Definition dashes (n : nat) : str := repeat_str (u "-") n.

Definition label_Pairs : str :=
  dashes 10 ++ u "Print Items In Dictionary " ++ dquote ++ u "Pairs" ++ dquote
  ++ u ":" ++ dashes 21.
Definition label_Find : str :=
  dashes 10 ++ u "Find Keys With Same Values " ++ dashes 21.
Definition label_Anagrams : str :=
  dashes 10 ++ u "Print " ++ dquote ++ u "Annagrams" ++ dquote ++ u ":"
  ++ dashes 21.

(** The script, top to bottom.  The two dictionaries are the constants
    above; the loop that fills [Anagrams] prints nothing. *)
Definition script : M (list str) unit :=
  print_ label_Pairs ;;;
  for_each Pairs (fun kv => print_ (kv.1 ++ u " " ++ kv.2)) ;;;
  print_ label_Find ;;;
  print_ label_Anagrams ;;;
  for_each Anagrams (fun kv => print_ (kv.1 ++ u " " ++ str_of_list no_table kv.2)).

(** The words that [pairs] maps to [key], in the order of [pairs]. *)
Definition group_of (pairs : list (str * str)) (key : str) : list str :=
  (filter (fun kv : str * str => kv.2 = key) pairs).*1.

(** Two words are grouped together when one group list of the mapping
    holds both. *)
Definition same_group (A : dict str (list str)) (w1 w2 : str) : Prop :=
  exists k g, dict_get A k = Some g /\ w1 ∈ g /\ w2 ∈ g.

(** One run of the script from an empty console. *)
Definition run : result unit * list str := script [].

(** A label line is one that starts with the ten dashes the script puts
    in front of each of its labels. *)
Definition is_label (line : str) : bool := startswith line (dashes 10).

(** An output cut at its label lines: [split_sections] gives the lines
    in front of the first label and then, for each label line, the label
    and the lines printed below it, up to the next label. *)
Fixpoint split_sections (out : list str) : list str * list (str * list str) :=
  match out with
  | [] => ([], [])
  | x :: out' =>
      let (body, rest) := split_sections out' in
      if is_label x then ([], (x, body) :: rest) else (x :: body, rest)
  end.

Definition sections (out : list str) : list (str * list str) :=
  (split_sections out).2.

(** A labeled section of an output is a label line together with the
    lines printed below it, of which there is at least one. *)
Definition labeled_sections (out : list str) : list (str * list str) :=
  List.filter (fun sec => match sec.2 with [] => false | _ :: _ => true end)
              (sections out).

End Anagram.

(* ===================================================================== *)
(** ** scripts/update_documentation.py                                    *)
(* ===================================================================== *)

Module UpdateDocumentation.
Import Py.
Local Open Scope py_scope.

(** What the script takes from its host: the Unicode tables behind
    [\w], [str.isprintable], [str.lower] and [str.upper]; the
    regular-expression scan of a source text in
    [extract_file_description] (lines 25 to 50 of the script: the
    description and the key items found in the text, before the default
    description is filled in); whether [os.linesep] is ["\r\n"]; the
    separator [os.sep] of path components; and the three paths [main]
    derives from the script's own location, as [str(path)] shows them.

    The scan takes the seed of the interpreter's string hashing with the
    text: each key item is [', '.join(set(...))] of up to three names,
    and the order in which a set of strings is iterated depends on that
    seed. *)
Class Host := {
  unicode_alnum : char -> bool;
  unicode_printable : char -> bool;
  lower : str -> str;
  upper : str -> str;
  scan_source : N -> str -> str * list str;
  crlf_linesep : bool;
  os_sep : str;
  src_dir_str : str;
  readme_str : str;
  template_str : str;
}.

(** A file of the project, as [open] finds it during the run.
    - [Text raw] is a text file that can be read and written: a write to
      it succeeds.  [raw] is its content, decoded, with the line ends it
      has on disk.
    - [Unwritable raw msg after] can be read like [Text raw], but the
      write the script attempts fails with an exception whose text is
      [msg]: the file is read-only, the disk is full, a directory is in
      the place of the template file (which the script never reads), or
      the text cannot be encoded because a file name holds a surrogate
      code point.  [after] is the content the failed attempt leaves
      behind: [raw] itself when the file could not be opened for writing,
      the empty text when it was truncated before the failure.
    - [Unreadable msg] cannot be read: [open] or [f.read()] raises an
      exception whose text is [msg] (no permission, a directory, bytes
      that are not UTF-8).  The script writes no file that it has failed
      to read. *)
Inductive file :=
| Text (raw : str)
| Unwritable (raw : str) (msg : str) (after : str)
| Unreadable (msg : str).

(** The project as the script sees it during one run of the interpreter.
    [src_dir] lists the entries of [src/] by name, in the order the
    directory is scanned; [hash_seed] is the seed of the run.  The two
    streams of the console take every line that is printed: standard
    output is taken to encode every string it is given. *)
Record World := {
  src_dir : option (list (str * file));
  readme : option file;
  template : option file;
  hash_seed : N;
  stdout : list str;
  stderr : list str;
}.

Definition print_ (line : str) : M World unit :=
  modify (fun w => {| src_dir := src_dir w; readme := readme w;
                      template := template w; hash_seed := hash_seed w;
                      stdout := stdout w ++ [line]; stderr := stderr w |}).

(** [print(line, file=sys.stderr)] *)
Definition eprint (line : str) : M World unit :=
  modify (fun w => {| src_dir := src_dir w; readme := readme w;
                      template := template w; hash_seed := hash_seed w;
                      stdout := stdout w; stderr := stderr w ++ [line] |}).

(** What [f.read()] returns for a file, when it returns. *)
Definition file_text (f : file) : option str :=
  match f with
  | Text raw | Unwritable raw _ _ => Some (universal_newlines raw)
  | Unreadable _ => None
  end.

(** [open(path, 'r', encoding='utf-8')] and [f.read()], for the file
    found at a path that [str] shows as [name]. *)
Definition read_text (name : str) (f : option file) : result str :=
  match f with
  | Some (Text raw) | Some (Unwritable raw _ _) => Ok (universal_newlines raw)
  | Some (Unreadable msg) => Raise (OtherError msg)
  | None => Raise (FileNotFoundError name)
  end.

(** [open(path, 'w', encoding='utf-8')] and [f.write(text)]: the outcome
    and the file that is there afterwards. *)
Definition write_text (linesep text : str) (f : option file)
    : result unit * option file :=
  match f with
  | Some (Unwritable _ msg after) =>
      (Raise (OtherError msg), Some (Unwritable after msg after))
  | _ => (Ok tt, Some (Text (write_newlines linesep text)))
  end.

(** A path below [src/] is known by its file name. *)
Abbreviation Path := str (only parsing).

Section Script.
Context `{Host}.

(** [os.linesep] *)
Definition linesep : str := if crlf_linesep then [13%N; 10%N] else [10%N].

(** [open(readme_path, 'r', encoding='utf-8')] and [f.read()] *)
Definition read_readme : M World str :=
  fun w => (read_text readme_str (readme w), w).

(** [open(readme_path, 'w', encoding='utf-8')] and [f.write(text)] *)
Definition write_readme (text : str) : M World unit :=
  fun w => let (r, f) := write_text linesep text (readme w) in
           (r, {| src_dir := src_dir w; readme := f;
                  template := template w; hash_seed := hash_seed w;
                  stdout := stdout w; stderr := stderr w |}).

Definition write_template (text : str) : M World unit :=
  fun w => let (r, f) := write_text linesep text (template w) in
           (r, {| src_dir := src_dir w; readme := readme w;
                  template := f; hash_seed := hash_seed w;
                  stdout := stdout w; stderr := stderr w |}).

Definition path_str (p : Path) : str := src_dir_str ++ os_sep ++ p.

(** The entry of [src/] a path leads to. *)
Definition source_file (w : World) (filepath : Path) : option file :=
  match src_dir w with
  | Some entries => dict_get entries filepath
  | None => None
  end.

(** [open(filepath, 'r', encoding='utf-8')] and [f.read()] *)
Definition read_source (filepath : Path) : M World str :=
  fun w => (read_text (path_str filepath) (source_file w filepath), w).

Definition extract_file_description (filepath : Path) : M World (str * list str) :=
  r <- try_except
         (content <- read_source filepath ;;
          w <- get ;;
          ret (scan_source (hash_seed w) content))
         is_Exception
         (fun e =>
            eprint (u "Warning: Could not read " ++ path_str filepath ++ u ": "
                    ++ str_of_exn unicode_printable e) ;;;
            ret (u "C++ example file", [])) ;;
  let description :=
    match r.1 with
    | [] => u "Modern C++ example demonstrating various features"
    | _ :: _ => r.1
    end in
  ret (description, r.2).

(** [src_dir.glob(pattern)] for a pattern ['*' + ext]: the entries whose
    name ends in [ext], in scan order; nothing when the directory is
    absent. *)
Definition glob (w : World) (ext : str) : list Path :=
  match src_dir w with
  | Some entries => List.filter (fun name => endswith name ext) (dict_keys entries)
  | None => []
  end.

Definition get_all_source_files (w : World) : list (str * Path) :=
  let files := glob w (u ".cpp") ++ glob w (u ".cppm") in
  let files := sorted_by lower str_leb files in
  List.map (fun f => (f, f)) files.

(** [filename[0]] *)
Definition first_char (filename : str) : M World str :=
  match filename with
  | c :: _ => ret [c]
  | [] => raise (IndexError (u "string index out of range"))
  end.

(** The body of the loop of [generate_alphabetical_section]; the three
    variables it updates are threaded through. *)
Definition section_entry (st : list str * option str * nat) (file : str * Path)
    : M World (list str * option str * nat) :=
  let '(output, current_letter, file_number) := st in
  let '(filename, filepath) := file in
  c <- first_char filename ;;
  let first_letter := upper c in
  let output :=
    if bool_decide (Some first_letter = current_letter) then output
    else
      (match current_letter with Some _ => output ++ [[]] | None => output end)
      ++ [u "### " ++ first_letter ++ nl] in
  let current_letter := Some first_letter in
  d <- extract_file_description filepath ;;
  let '(description, key_items) := d in
  let rel_path := u "src/" ++ filename in
  let output :=
    output ++ [str_of_nat file_number ++ u ". **[" ++ filename ++ u "]("
               ++ rel_path ++ u ")**"] in
  let output := output ++ [u "   - " ++ description] in
  let output := output ++ List.map (fun item => u "   - " ++ item) (take 2 key_items) in
  let output := output ++ [[]] in
  ret (output, current_letter, S file_number).

Fixpoint section_loop (files : list (str * Path))
    (st : list str * option str * nat) : M World (list str * option str * nat) :=
  match files with
  | [] => ret st
  | file :: files' => st' <- section_entry st file ;; section_loop files' st'
  end.

Definition start_marker : str :=
  Eval vm_compute in u "## 📋 **Complete Examples - Alphabetical Reference**".
Definition end_marker : str :=
  Eval vm_compute in u "## 🏗️ **Project Structure**".

Definition generate_alphabetical_section : M World str :=
  w <- get ;;
  let files := get_all_source_files w in
  let output :=
    [u "## 📋 **Complete Examples - Alphabetical Reference**" ++ nl;
     u "Below is a complete alphabetical listing of all C++ example files in this repository. ";
     u "Each entry links to the source file with a brief description of its contents." ++ nl] in
  st <- section_loop files (output, None, 1%nat) ;;
  ret (join nl st.1.1).

Definition update_readme : M World bool :=
  try_except
    (content <- read_readme ;;
     let start_idx := find content start_marker in
     let end_idx := find content end_marker in
     if (start_idx =? -1) || (end_idx =? -1) then
       eprint (u "Error: Could not find section markers in README.md") ;;;
       ret false
     else
       new_section <- generate_alphabetical_section ;;
       let new_content :=
         slice_to content start_idx ++ new_section ++ (nl ++ u "---" ++ nl ++ nl)
         ++ slice_from content end_idx in
       write_readme new_content ;;;
       print_ (u "✅ Updated " ++ readme_str) ;;;
       ret true)
    is_Exception
    (fun e =>
       eprint (u "❌ Error updating README.md: "
               ++ str_of_exn unicode_printable e) ;;;
       ret false).

(** The regular expression [\[(\w+\.(?:cpp|cppm))\]]. *)
Definition is_word (c : char) : bool :=
  if (c <? 128)%N then
    ((48 <=? c) && (c <=? 57) || (65 <=? c) && (c <=? 90)
     || (97 <=? c) && (c <=? 122) || (c =? 95))%N
  else unicode_alnum c.

(** The longest run of word characters at the head of [s], and what
    follows it. *)
Fixpoint span_word (s : str) : str * str :=
  match s with
  | c :: s' => if is_word c then let (w, r) := span_word s' in (c :: w, r)
               else ([], s)
  | [] => ([], [])
  end.

(** A match that starts at the head of [s]: its group 1 and its length.
    After the opening bracket [\w+] takes the whole run of word
    characters, since the dot that must follow is not one; of the two
    endings, [cpp] is tried first. *)
Definition match_link (s : str) : option (str * nat) :=
  if startswith s (u "[") then
    let (w, r) := span_word (drop 1 s) in
    match w with
    | [] => None
    | _ :: _ =>
        if startswith r (u ".cpp]") then
          Some (w ++ u ".cpp", (length w + 6)%nat)
        else if startswith r (u ".cppm]") then
          Some (w ++ u ".cppm", (length w + 7)%nat)
        else None
    end
  else None.

(** [re.findall]: the groups of the matches, found from left to right,
    each search starting where the previous match ended ([skip] counts the
    characters of a match still to pass). *)
Fixpoint findall_links_go (skip : nat) (s : str) : list str :=
  match s with
  | [] => []
  | _ :: s' =>
      match skip with
      | S k => findall_links_go k s'
      | O =>
          match match_link s with
          | Some (g, len) => g :: findall_links_go (len - 1) s'
          | None => findall_links_go 0 s'
          end
      end
  end.

Definition findall_links (s : str) : list str := findall_links_go 0 s.

Definition check_new_files : M World (list str) :=
  w <- get ;;
  let source_files : gset str := list_to_set (List.map fst (get_all_source_files w)) in
  try_except
    (readme_content <- read_readme ;;
     let readme_files : gset str := list_to_set (findall_links readme_content) in
     let new_files := source_files ∖ readme_files in
     ret (sorted str_leb (elements new_files)))
    is_Exception
    (fun e =>
       eprint (u "Warning: Could not check for new files: "
               ++ str_of_exn unicode_printable e) ;;;
       ret []).

(** The body of the loop of [generate_index_template]. *)
Definition template_entry (output : list str) (filename : str)
    : M World (list str) :=
  let filepath : Path := filename in
  d <- extract_file_description filepath ;;
  let '(description, key_items) := d in
  let output := output ++
    [nl ++ u "### " ++ filename;
     u "- **File:** [" ++ filename ++ u "](src/" ++ filename ++ u ")";
     u "- **Description:** " ++ description;
     u "- **Topics:** [TODO: Add relevant topics/keywords]";
     u "- **Suggested Sections:**";
     u "  - [ ] C++ Standards Features (C++11/14/17/20/23)";
     u "  - [ ] Design Patterns & Idioms";
     u "  - [ ] Concurrency & Parallelism";
     u "  - [ ] Real-Time & Embedded Systems";
     u "  - [ ] Safety-Critical & Standards";
     u "  - [ ] Other: _____________"] in
  let output :=
    match key_items with
    | [] => output
    | _ :: _ => output ++ [u "- **Key Items:** " ++ join (u ", ") key_items]
    end in
  ret output.

Fixpoint template_loop (new_files : list str) (output : list str)
    : M World (list str) :=
  match new_files with
  | [] => ret output
  | filename :: rest =>
      output' <- template_entry output filename ;; template_loop rest output'
  end.

Definition rule : str := repeat_str (u "=") 70.

Definition generate_index_template (new_files : list str) : M World str :=
  match new_files with
  | [] => ret []
  | _ :: _ =>
      let output :=
        [nl ++ rule;
         u "NEW FILES DETECTED - INDEX.md UPDATE TEMPLATE";
         rule;
         nl ++ u "Add these files to appropriate sections in INDEX.md:" ++ nl] in
      output <- template_loop new_files output ;;
      let output := output ++
        [nl ++ rule;
         u "Copy relevant sections above into INDEX.md";
         rule ++ nl] in
      ret (join nl output)
  end.

(** [if new_files:] *)
Definition nonempty {A : Type} (l : list A) : bool :=
  match l with [] => false | _ :: _ => true end.

Definition main : M World Z :=
  print_ (nl ++ rule) ;;;
  print_ (u "Modern C++ Examples - Documentation Updater") ;;;
  print_ (rule ++ nl) ;;;
  w <- get ;;
  if negb (bool_decide (is_Some (src_dir w))) then
    eprint (u "❌ Error: src directory not found at " ++ src_dir_str) ;;;
    ret 1
  else if negb (bool_decide (is_Some (readme w))) then
    eprint (u "❌ Error: README.md not found at " ++ readme_str) ;;;
    ret 1
  else
    new_files <- check_new_files ;;
    (if nonempty new_files then
       print_ (u "🔍 Found " ++ str_of_nat (length new_files) ++ u " new file(s):") ;;;
       for_each new_files (fun f => print_ (u "   - " ++ f)) ;;;
       print_ []
     else
       print_ (u "ℹ️  No new files detected" ++ nl)) ;;;
    print_ (u "📝 Updating README.md alphabetical listing...") ;;;
    updated <- update_readme ;;
    if updated then
      print_ (u "✅ README.md updated successfully" ++ nl) ;;;
      (if nonempty new_files then
         print_ (u "📋 Generating INDEX.md update template...") ;;;
         template_text <- generate_index_template new_files ;;
         write_template template_text ;;;
         print_ template_text ;;;
         print_ (u "✅ Template saved to: " ++ template_str) ;;;
         print_ (nl ++ u "⚠️  ACTION REQUIRED:") ;;;
         print_ (u "   1. Review the template above") ;;;
         print_ (u "   2. Add new files to appropriate sections in INDEX.md") ;;;
         print_ (u "   3. Delete INDEX_UPDATE_TEMPLATE.txt when done" ++ nl)
       else ret tt) ;;;
      print_ rule ;;;
      print_ (u "SUMMARY") ;;;
      print_ rule ;;;
      w' <- get ;;
      let all_files := get_all_source_files w' in
      print_ (u "✅ Total source files: " ++ str_of_nat (length all_files)) ;;;
      print_ (u "✅ README.md: Updated") ;;;
      (if nonempty new_files then
         print_ (u "⚠️  INDEX.md: Manual update needed for "
                 ++ str_of_nat (length new_files) ++ u " new file(s)") ;;;
         print_ (u "   See: INDEX_UPDATE_TEMPLATE.txt")
       else
         print_ (u "✅ INDEX.md: No updates needed")) ;;;
      print_ (u "✅ PDF: Will be automatically generated by GitHub Actions") ;;;
      print_ (rule ++ nl) ;;;
      ret 0
    else
      print_ (u "❌ Failed to update README.md" ++ nl) ;;;
      ret 1.

(** [sys.exit(main())] under the [__main__] guard. *)
Definition program : M World unit :=
  code <- main ;;
  raise (SystemExit code).

(** A file name the link pattern can match: a stem of one or more word
    characters and one of the two extensions. *)
Definition linkable (f : str) : Prop :=
  exists stem, stem <> [] /\ Forall (fun c => is_word c = true) stem /\
               (f = stem ++ u ".cpp" \/ f = stem ++ u ".cppm").

(** The names [get_all_source_files] lists. *)
Definition source_name (w : World) (f : str) : Prop :=
  f ∈ glob w (u ".cpp") \/ f ∈ glob w (u ".cppm").

(** The text [update_readme] puts in place of the old section: the
    generated section and the separator after it. *)
Definition new_section (w : World) : str :=
  match (generate_alphabetical_section w).1 with
  | Ok text => text
  | Raise _ => []
  end.

Definition separator : str := nl ++ u "---" ++ nl ++ nl.

(** The README as [f.read()] returns it, when it can be read. *)
Definition readme_text (w : World) : option str :=
  match readme w with
  | Some f => file_text f
  | None => None
  end.

(** The line [extract_file_description] writes to the error stream when
    reading the file at [filepath] has raised [e]; the lines it writes
    for a list of paths, one for each path that cannot be read; and the
    lines [generate_alphabetical_section] causes, one for each listed
    source that cannot be read, in the order of the listing. *)
Definition read_warning (filepath : Path) (e : exn) : str :=
  u "Warning: Could not read " ++ path_str filepath ++ u ": "
  ++ str_of_exn unicode_printable e.

Definition read_warnings (w : World) (paths : list Path) : list str :=
  flat_map (fun p => match read_text (path_str p) (source_file w p) with
                     | Ok _ => []
                     | Raise e => [read_warning p e]
                     end) paths.

Definition source_warnings (w : World) : list str :=
  read_warnings w (List.map snd (get_all_source_files w)).

(** The line [update_readme] writes to the error stream when it has
    caught [e]. *)
Definition update_error (e : exn) : str :=
  u "❌ Error updating README.md: " ++ str_of_exn unicode_printable e.

End Script.

(** [c'] is [c] with the span between the indices [s] and [e] replaced:
    what is in front of the lower index and what comes from the higher
    index on are the same in both. *)
Definition span_replaced (c c' : str) (s e : nat) : Prop :=
  exists pre old new post,
    c = pre ++ old ++ post /\ c' = pre ++ new ++ post /\
    length pre = Nat.min s e /\ length (pre ++ old) = Nat.max s e.

(** The text [text] holds [l] as one of the pieces that were joined with
    newlines into it. *)
Definition has_line (text l : str) : Prop :=
  exists before after, text = join nl (before ++ [l] ++ after).

(** [f] is referenced in the text [c] as a bracketed link: [c] holds [f]
    between square brackets. *)
Definition bracketed (c f : str) : Prop := occurs c ([91%N] ++ f ++ [93%N]).

(** Both markers occur in a README text. *)
Definition has_markers (c : str) : Prop :=
  occurs c start_marker /\ occurs c end_marker.


(** Two states of a run with the same files; the consoles may differ. *)
Definition same_files (w w' : World) : Prop :=
  src_dir w' = src_dir w /\ readme w' = readme w /\ template w' = template w /\
  hash_seed w' = hash_seed w.

(** The state [w] after a computation has left [r] and [t] as the README
    and the template file and has printed the lines [out] and [err]. *)
Definition touch (r t : option file) (out err : list str) (w : World) : World :=
  {| src_dir := src_dir w; readme := r; template := t; hash_seed := hash_seed w;
     stdout := stdout w ++ out; stderr := stderr w ++ err |}.

(** What a computation does does not depend on what is on the consoles:
    [acts m w Q] says that [m], run from any state with the files of [w],
    ends with one result, leaves one README and one template file and
    prints the same lines, and that these satisfy [Q]. *)
Definition acts {A} (m : M World A) (w : World)
    (Q : result A -> option file -> option file -> list str -> list str -> Prop)
    : Prop :=
  exists res r t out err,
    (forall x, same_files w x -> m x = (res, touch r t out err x)) /\
    Q res r t out err.

(** [m] ends with exactly this result, these two files and these lines. *)
Definition exactly {A} (res : result A) (r t : option file) (out err : list str)
    : result A -> option file -> option file -> list str -> list str -> Prop :=
  fun res' r' t' out' err' =>
    res' = res /\ r' = r /\ t' = t /\ out' = out /\ err' = err.






(** [w'] is [w] after the lines [lines] on the error stream, nothing
    else touched; and after one more line [message]. *)
Definition warned (w : World) (lines : list str) (w' : World) : Prop :=
  same_files w w' /\ stdout w' = stdout w /\ stderr w' = stderr w ++ lines.

Definition reported (w : World) (message : str) (w' : World) : Prop :=
  same_files w w' /\ stdout w' = stdout w /\ stderr w' = stderr w ++ [message].

(** The line of the generated listing for the file [f] numbered [n], and
    the line of the index template that names the file [f]. *)
Definition entry_line (n : nat) (f : str) : str :=
  str_of_nat n ++ u ". **[" ++ f ++ u "](" ++ (u "src/" ++ f) ++ u ")**".
Definition template_file_line (f : str) : str :=
  u "- **File:** [" ++ f ++ u "](src/" ++ f ++ u ")".

(** The heading of the listing for the files whose name begins with
    [letter]. *)
Definition heading_line (letter : str) : str := u "### " ++ letter ++ nl.

(** A host for the sample projects below: ASCII case mapping, no word
    characters beyond ASCII, ["\n"] as [os.linesep], POSIX paths below
    [/repo], and a scan that finds nothing, which is what the scan of the
    script finds in the sources of these projects: they hold no comment,
    namespace, class or function. *)
Definition ascii_lower (s : str) : str :=
  List.map (fun c => if (65 <=? c)%N && (c <=? 90)%N then (c + 32)%N else c) s.
Definition ascii_upper (s : str) : str :=
  List.map (fun c => if (97 <=? c)%N && (c <=? 122)%N then (c - 32)%N else c) s.

Definition ascii_host : Host := {|
  unicode_alnum := fun _ => false;
  unicode_printable := no_table;
  lower := ascii_lower;
  upper := ascii_upper;
  scan_source := fun _ _ => ([], []);
  crlf_linesep := false;
  os_sep := u "/";
  src_dir_str := u "/repo/src";
  readme_str := u "/repo/README.md";
  template_str := u "/repo/INDEX_UPDATE_TEMPLATE.txt";
|}.

(** Sample projects: one whose README holds the section between its
    markers, one whose README holds no marker, and one whose README holds
    the end marker in front of the start marker. *)
Definition sample_readme : str :=
  u "# Examples" ++ nl ++ start_marker ++ nl ++ u "1. old listing" ++ nl
  ++ end_marker ++ nl ++ u "tree" ++ nl.

Definition reversed_readme : str :=
  u "# Examples" ++ nl ++ end_marker ++ nl ++ u "tree" ++ nl
  ++ start_marker ++ nl ++ u "1. old listing" ++ nl.

Definition sample_source : file := Text (u "#include <vector>" ++ nl).

Definition project_with (f : file) : World := {|
  src_dir := Some [(u "Alpha.cpp", sample_source); (u "notes.txt", Text (u "todo"))];
  readme := Some f;
  template := None;
  hash_seed := 0;
  stdout := [];
  stderr := [];
|}.

Definition project (text : str) : World := project_with (Text text).

(** A project with a source whose name holds a hyphen, and a README that
    has the section markers and nothing between them. *)
Definition hyphen_world : World := {|
  src_dir := Some [(u "my-file.cpp", sample_source)];
  readme := Some (Text (u "# Examples" ++ nl ++ start_marker ++ nl ++ end_marker ++ nl));
  template := None;
  hash_seed := 0;
  stdout := [];
  stderr := [];
|}.

Definition sample_world : World := project sample_readme.
Definition bare_world : World := project (u "# Examples" ++ nl).
Definition reversed_world : World := project reversed_readme.

(** The sample README with the line ends of a Windows editor, and the
    project that holds it. *)
Definition crlf_readme : str :=
  u "# Examples" ++ [13%N; 10%N] ++ start_marker ++ [13%N; 10%N]
  ++ u "1. old listing" ++ [13%N; 10%N]
  ++ end_marker ++ [13%N; 10%N] ++ u "tree" ++ [13%N; 10%N].

Definition crlf_world : World := project crlf_readme.

(** A project whose README is there but holds a byte that is not UTF-8,
    one whose README has the markers but is read-only, and one whose
    source cannot be read. *)
Definition undecodable_readme_world : World :=
  project_with
    (Unreadable (u "'utf-8' codec can't decode byte 0xff in position 0: invalid start byte")).


Definition unreadable_source_world : World := {|
  src_dir := Some [(u "Alpha.cpp",
                    Unreadable (u "[Errno 13] Permission denied: '/repo/src/Alpha.cpp'"))];
  readme := Some (Text sample_readme);
  template := None;
  hash_seed := 0;
  stdout := [];
  stderr := [];
|}.

End UpdateDocumentation.

(* ===================================================================== *)
(** ** test_pybind.py                                                     *)
(* ===================================================================== *)

Module TestPybind.
Import Py.
Local Open Scope py_scope.

(** The script's collaborators are the native module [pybind_example]
    and, optionally, [numpy].  What they do is not the script's to say: a
    run is taken against an environment that tells, for each import,
    whether it raises, and for each statement of the script that
    evaluates an expression on the module, on [numpy] or on an object
    obtained from them, whether that statement raises when it is reached.
    Statements are named by their line in the source. *)
Record Env := {
  import_pybind_example : option exn;
  import_numpy : option exn;
  raises : nat -> option exn;
  truth : nat -> bool;
}.

(** Standard output.  The text of a [print] whose argument holds a value
    computed by a collaborator is left open: [Foreign n] stands for what
    the statement at line [n] prints. *)
Inductive line :=
| Text (s : str)
| Foreign (n : nat).

Definition print_ (s : str) : M (list line) unit :=
  modify (fun out => out ++ [Text s]).

Section Script.
Context (env : Env).

Definition import_ (outcome : option exn) : M (list line) unit :=
  match outcome with
  | Some e => raise e
  | None => ret tt
  end.

(** A statement that calls into a collaborator and prints nothing. *)
Definition call (n : nat) : M (list line) unit :=
  match raises env n with
  | Some e => raise e
  | None => ret tt
  end.

(** A [print] of an f-string that formats foreign values. *)
Definition print_foreign (n : nat) : M (list line) unit :=
  call n ;;;
  modify (fun out => out ++ [Foreign n]).

(** [sys.exit(code)] *)
Definition sys_exit {A} (code : Z) : M (list line) A := raise (SystemExit code).

Definition rule : str := repeat_str (u "=") 70.
Definition dash_rule : str := repeat_str (u "-") 70.

Definition simple_functions : M (list line) unit :=
  print_ (nl ++ u "1. SIMPLE FUNCTIONS (Python calling C++):") ;;;
  print_ dash_rule ;;;
  call 32 ;;; print_foreign 33 ;;;
  call 35 ;;; print_foreign 36 ;;;
  call 38 ;;; print_foreign 39 ;;;
  call 41 ;;; print_foreign 42 ;;;
  call 44 ;;; print_foreign 45.

Definition stl_containers : M (list line) unit :=
  print_ (nl ++ u "2. STL CONTAINERS (automatic conversion):") ;;;
  print_ dash_rule ;;;
  call 54 ;;; print_foreign 55 ;;;
  let words := List.map u ["hello"; "world"; "hello"; "python"; "world"]%string in
  call 58 ;;;
  print_ (u "pe.count_words(" ++ str_of_list no_table words ++ u ")") ;;;
  print_foreign 60.

Definition classes : M (list line) unit :=
  print_ (nl ++ u "3. CLASSES (C++ objects in Python):") ;;;
  print_ dash_rule ;;;
  call 68 ;;; call 69 ;;;
  print_foreign 70 ;;; print_foreign 71 ;;; print_foreign 72 ;;;
  call 74 ;;; print_foreign 75 ;;;
  call 77 ;;; print_foreign 78 ;;;
  call 81 ;;; print_foreign 82 ;;;
  call 85 ;;; print_foreign 86.

(** [shapes] is a Python list of three objects; the loop prints one line
    for each. *)
Definition inheritance : M (list line) unit :=
  print_ (nl ++ u "4. INHERITANCE (polymorphism):") ;;;
  print_ dash_rule ;;;
  call 94 ;;;
  for_each (seq 0 3) (fun _ => print_foreign 101).

Definition callbacks : M (list line) unit :=
  print_ (nl ++ u "5. CALLBACKS (C++ calling Python functions!):") ;;;
  print_ dash_rule ;;;
  call 114 ;;;
  print_ (u "Data: [1, 2, 3, 4, 5]") ;;;
  print_ (u "Transform: x -> 2*x + 1") ;;;
  print_foreign 117 ;;;
  call 120 ;;;
  print_ (nl ++ u "Transform: x -> x^2") ;;;
  print_foreign 122 ;;;
  print_ (nl ++ u "Numerical integration:") ;;;
  call 126 ;;; print_foreign 127 ;;;
  call 129 ;;; print_foreign 130.

(** The loop at line 160 runs over a list the module returned; its
    output is one foreign block. *)
Definition sensor_data : M (list line) unit :=
  print_ (nl ++ u "6. SENSOR DATA PROCESSING (embedded example):") ;;;
  print_ dash_rule ;;;
  call 138 ;;;
  call 139 ;;; call 140 ;;; call 141 ;;; call 142 ;;; call 143 ;;;
  print_foreign 145 ;;;
  call 151 ;;; print_foreign 152 ;;;
  call 158 ;;;
  print_ (nl ++ u "Readings with temp > 25.0:") ;;;
  print_foreign 160 ;;;
  call 167 ;;; print_foreign 168.

Definition numpy_arrays : M (list line) unit :=
  try_except
    (import_ (import_numpy env) ;;;
     print_ (nl ++ u "7. NUMPY ARRAYS (high performance!):") ;;;
     print_ dash_rule ;;;
     call 180 ;;; call 181 ;;;
     print_foreign 182 ;;; print_foreign 183 ;;;
     print_ (nl ++ u "Matrix multiplication:") ;;;
     call 187 ;;; call 188 ;;; call 189 ;;;
     print_ (u "A =") ;;; print_foreign 192 ;;;
     print_ (nl ++ u "B =") ;;; print_foreign 194 ;;;
     print_ (nl ++ u "A @ B =") ;;; print_foreign 196 ;;;
     call 199 ;;;
     call 200 ;;;
     if truth env 200 then print_ (nl ++ u "✓ Result matches NumPy's matmul!")
     else ret tt)
    is_ImportError
    (fun _ =>
       print_ (nl ++ u "7. NUMPY ARRAYS:") ;;;
       print_ dash_rule ;;;
       print_ (u "NumPy not installed - skipping NumPy examples") ;;;
       print_ (u "Install with: pip install numpy")).

(** [del resource] unbinds a local name and cannot raise. *)
Definition smart_pointers : M (list line) unit :=
  print_ (nl ++ u "8. SMART POINTERS (automatic memory management):") ;;;
  print_ dash_rule ;;;
  print_ (u "Creating resource...") ;;;
  call 216 ;;; print_foreign 217 ;;;
  print_ (u "Deleting resource...") ;;;
  print_ (u "Resource automatically destroyed by C++ destructor!").

Definition main : M (list line) unit :=
  try_except
    (import_ (import_pybind_example env))
    is_ImportError
    (fun _ =>
       print_ (u "ERROR: pybind_example module not found!") ;;;
       print_ (u "Build it first with:") ;;;
       print_ (u "  c++ -O3 -Wall -shared -std=c++17 -fPIC \") ;;;
       print_ (u "      $(python3 -m pybind11 --includes) \") ;;;
       print_ (u "      src/Pybind11Example.cpp \") ;;;
       print_ (u "      -o pybind_example$(python3-config --extension-suffix)") ;;;
       sys_exit 1) ;;;
  print_ rule ;;;
  print_ (u "PYBIND11 EXAMPLE - C++ AND PYTHON INTEROPERABILITY") ;;;
  print_ rule ;;;
  simple_functions ;;;
  stl_containers ;;;
  classes ;;;
  inheritance ;;;
  callbacks ;;;
  sensor_data ;;;
  numpy_arrays ;;;
  smart_pointers ;;;
  print_ (nl ++ rule) ;;;
  print_ (u "ALL TESTS PASSED!") ;;;
  print_ rule.

(** The script under its [__main__] guard, from an empty console, and
    the status the interpreter exits with. *)
Definition run : result unit * list line := main [].
Definition status : Z := exit_status run.1.

End Script.

(** The last message of the script, the six lines it prints when the
    native module cannot be imported, and the lines of the statements
    inside the [try] block of the [numpy] section. *)
Definition passed_line : line := Text (u "ALL TESTS PASSED!").

Definition build_hint : list line :=
  [Text (u "ERROR: pybind_example module not found!");
   Text (u "Build it first with:");
   Text (u "  c++ -O3 -Wall -shared -std=c++17 -fPIC \");
   Text (u "      $(python3 -m pybind11 --includes) \");
   Text (u "      src/Pybind11Example.cpp \");
   Text (u "      -o pybind_example$(python3-config --extension-suffix)")].

Definition numpy_block : list nat :=
  [180; 181; 182; 183; 187; 188; 189; 192; 194; 196; 199; 200]%nat.

(** The lines of the statements outside that block that reach into the
    native module. *)
Definition module_lines : list nat :=
  [32; 33; 35; 36; 38; 39; 41; 42; 44; 45;
   54; 55; 58; 60;
   68; 69; 70; 71; 72; 74; 75; 77; 78; 81; 82; 85; 86;
   94; 101;
   114; 117; 120; 122; 126; 127; 129; 130;
   138; 139; 140; 141; 142; 143; 145; 151; 152; 158; 160; 167; 168;
   216; 217]%nat.

(** A computation that does not print the line [l], however it ends. *)
Definition never_prints {A} (l : line) (m : M (list line) A) : Prop :=
  forall out, l ∉ out -> l ∉ (m out).2.

(** Every statement but the one at line [n] returns. *)
Definition only_raises (env : Env) (n : nat) : Prop :=
  forall k, k <> n -> raises env k = None.

(** Every statement that reaches into a collaborator returns. *)
Definition calls_return (env : Env) : Prop := forall n, raises env n = None.

(** [numpy] is there, or its import raises [ImportError]. *)
Definition numpy_optional (env : Env) : Prop :=
  import_numpy env = None \/ exists msg, import_numpy env = Some (ImportError msg).

(** An environment where both modules import, and the first call into
    the native module, [pe.add(5, 3)] at line 32, raises. *)
Definition stale_module : Env := {|
  import_pybind_example := None;
  import_numpy := None;
  raises := fun n => if (n =? 32)%nat
                     then Some (OtherError (u "module 'pybind_example' has no attribute 'add'"))
                     else None;
  truth := fun _ => true;
|}.

(** The native module is missing, and so is [numpy]. *)
Definition no_module : Env := {|
  import_pybind_example := Some (ImportError (u "No module named 'pybind_example'"));
  import_numpy := Some (ImportError (u "No module named 'numpy'"));
  raises := fun _ => None;
  truth := fun _ => true;
|}.

(** Both modules import, and [pe.numpy_square(arr)] at line 181 raises
    an [ImportError] of its own. *)
Definition numpy_call_fails : Env := {|
  import_pybind_example := None;
  import_numpy := None;
  raises := fun n => if (n =? 181)%nat
                     then Some (ImportError (u "numpy.core.multiarray failed to import"))
                     else None;
  truth := fun _ => true;
|}.

(** The native module is there and works; [numpy] is missing. *)
Definition no_numpy : Env := {|
  import_pybind_example := None;
  import_numpy := Some (ImportError (u "No module named 'numpy'"));
  raises := fun _ => None;
  truth := fun _ => true;
|}.

End TestPybind.

(* ===================================================================== *)
(** * Part II: properties                                                 *)
(* ===================================================================== *)

(** ** The definitions on small inputs *)

Module Examples.
Import Py Anagram UpdateDocumentation.

Example u_marker : u "## 📋" = [35; 35; 32; 128203]%N.
Proof. reflexivity. Qed.

Example signature_cat : signature (u "cat") = u "act".
Proof. reflexivity. Qed.

Example signature_boss : signature (u "boss") = u "boss".
Proof. reflexivity. Qed.

Example sorted_by_is_stable :
  sorted_by ascii_lower str_leb [u "b.cpp"; u "A.cpp"; u "a.cpp"; u "B.cpp"]
  = [u "A.cpp"; u "a.cpp"; u "b.cpp"; u "B.cpp"].
Proof. reflexivity. Qed.

Example sorted_strings_by_code_point :
  sorted str_leb [u "b.cpp"; u "A.cpp"; u "a.cpp"; u "B.cpp"]
  = [u "A.cpp"; u "B.cpp"; u "a.cpp"; u "b.cpp"].
Proof. reflexivity. Qed.

Example find_inside : find (u "hello") (u "lo") = 3.
Proof. reflexivity. Qed.

Example find_first_of_two : find (u "abcabc") (u "bc") = 1.
Proof. reflexivity. Qed.

Example find_nowhere : find (u "hello") (u "world") = -1.
Proof. reflexivity. Qed.

Example slice_to_negative : slice_to (u "hello") (-2) = u "hel".
Proof. reflexivity. Qed.

Example slice_from_beyond : slice_from (u "hello") 9 = [].
Proof. reflexivity. Qed.

Example str_of_nat_120 : str_of_nat 120 = u "120".
Proof. reflexivity. Qed.

Example str_of_list_words :
  str_of_list no_table [u "art"; u "tar"; u "rat"] = u "['art', 'tar', 'rat']".
Proof. reflexivity. Qed.

Example Anagrams_value :
  Anagrams =
    [(u "act", [u "act"; u "cat"]); (u "ant", [u "ant"; u "nat"]);
     (u "art", [u "art"; u "tar"; u "rat"]); (u "bet", [u "bet"]);
     (u "boss", [u "boss"]); (u "cop", [u "cop"]); (u "dip", [u "dip"]);
     (u "eel", [u "eel"]); (u "hit", [u "hit"]); (u "hot", [u "hot"]);
     (u "jot", [u "jot"]); (u "lot", [u "lot"])].
Proof. vm_compute. reflexivity. Qed.

Example findall_links_sample :
  @findall_links ascii_host
    (u "[[a.cpp] [b_1.cppm][c.cp] [d.cppx] [.cpp] [e.f.cpp] [my-file.cpp] [g.cpp]")
  = [u "a.cpp"; u "b_1.cppm"; u "g.cpp"].
Proof. vm_compute. reflexivity. Qed.

Example check_new_files_sample :
  (@check_new_files ascii_host sample_world).1 = Ok [u "Alpha.cpp"].
Proof. vm_compute. reflexivity. Qed.

Example generate_section_sample :
  (@generate_alphabetical_section ascii_host sample_world).1
  = Ok (u "## 📋 **Complete Examples - Alphabetical Reference**" ++ nl ++ nl
        ++ u "Below is a complete alphabetical listing of all C++ example files in this repository. " ++ nl
        ++ u "Each entry links to the source file with a brief description of its contents." ++ nl ++ nl
        ++ u "### A" ++ nl ++ nl
        ++ u "1. **[Alpha.cpp](src/Alpha.cpp)**" ++ nl
        ++ u "   - Modern C++ example demonstrating various features" ++ nl).
Proof. vm_compute. reflexivity. Qed.

Example repr_str_quotes :
  repr_str no_table (u "it's") = dquote ++ u "it's" ++ dquote /\
  repr_str no_table (u "a'b" ++ dquote ++ u "c") = u "'a\'b" ++ dquote ++ u "c'".
Proof. split; reflexivity. Qed.

Example repr_str_escapes :
  repr_str no_table [97; 9; 127; 233; 8203; 128203]%N
  = u "'a\t\x7f\xe9\u200b\U0001f4cb'" /\
  repr_str (fun c => (c =? 233)%N) [233; 8203]%N = [39; 233]%N ++ u "\u200b'".
Proof. split; reflexivity. Qed.

Example text_mode_sample :
  universal_newlines [97; 13; 10; 98; 13; 99; 10]%N = [97; 10; 98; 10; 99; 10]%N /\
  write_newlines [13; 10]%N [97; 10; 98]%N = [97; 13; 10; 98]%N.
Proof. split; reflexivity. Qed.

Example main_undecodable_readme :
  (@main ascii_host undecodable_readme_world).1 = Ok 1 /\
  stderr (@main ascii_host undecodable_readme_world).2
  = [u "Warning: Could not check for new files: 'utf-8' codec can't decode byte 0xff in position 0: invalid start byte";
     u "❌ Error updating README.md: 'utf-8' codec can't decode byte 0xff in position 0: invalid start byte"].
Proof. vm_compute. split; reflexivity. Qed.

Example main_unreadable_source :
  (@main ascii_host unreadable_source_world).1 = Ok 0 /\
  stderr (@main ascii_host unreadable_source_world).2
  = [u "Warning: Could not read /repo/src/Alpha.cpp: [Errno 13] Permission denied: '/repo/src/Alpha.cpp'";
     u "Warning: Could not read /repo/src/Alpha.cpp: [Errno 13] Permission denied: '/repo/src/Alpha.cpp'"].
Proof. vm_compute. split; reflexivity. Qed.

Example main_sample :
  exit_status (@program ascii_host sample_world).1 = 0 /\
  exit_status (@program ascii_host reversed_world).1 = 0 /\
  exit_status (@program ascii_host bare_world).1 = 1.
Proof. vm_compute. repeat split. Qed.

Example smoke_test_without_module :
  (TestPybind.run TestPybind.no_module).1 = Raise (SystemExit 1).
Proof. vm_compute. reflexivity. Qed.

End Examples.

(** ** Facts about the Python values *)

Module PyFacts.
Import Py.

Lemma Sorted_mono {A : Type} (R1 R2 : relation A) (l : list A) :
  (forall x y, R1 x y -> R2 x y) -> Sorted R1 l -> Sorted R2 l.
Proof.
  intros HR. induction 1 as [|x l Hl IH Hx]; constructor; [done|].
  destruct Hx; constructor; auto.
Qed.

Section SortingFacts.
Context {A K : Type} (key : A -> K) (leb : K -> K -> bool).
Local Abbreviation key_le := (key_le key leb).

Lemma insert_by_perm x l : insert_by key leb x l ≡ₚ x :: l.
Proof.
  induction l as [|y l IH]; simpl; [done|].
  destruct (leb (key x) (key y)); [done|].
  rewrite IH. apply perm_swap.
Qed.

Lemma sorted_by_perm l : sorted_by key leb l ≡ₚ l.
Proof.
  induction l as [|x l IH]; simpl; [done|].
  rewrite insert_by_perm. by rewrite IH.
Qed.

Lemma sorted_by_fixed l : Sorted key_le l -> sorted_by key leb l = l.
Proof.
  induction 1 as [|x l Hl IH Hx]; simpl; [done|].
  rewrite IH. destruct Hx as [|y l' Hxy]; simpl; [done|].
  unfold key_le in Hxy. by rewrite Hxy.
Qed.

Hypothesis leb_total : forall a b, leb a b = true \/ leb b a = true.

Lemma insert_by_sorted x l :
  Sorted key_le l -> Sorted key_le (insert_by key leb x l).
Proof.
  induction 1 as [|y l Hl IH Hy]; simpl.
  - repeat constructor.
  - destruct (leb (key x) (key y)) eqn:Hxy.
    + constructor; [by constructor|]. by constructor.
    + constructor; [done|].
      assert (key_le y x) as Hyx.
      { unfold key_le. destruct (leb_total (key x) (key y)); congruence. }
      destruct Hy as [|z l' Hyz]; simpl; [by constructor|].
      destruct (leb (key x) (key z)); by constructor.
Qed.

Lemma sorted_by_sorted l : Sorted key_le (sorted_by key leb l).
Proof.
  induction l as [|x l IH]; simpl; [constructor|].
  by apply insert_by_sorted.
Qed.

End SortingFacts.

Lemma sorted_chars_le (x : str) : Sorted N.le (sorted N.leb x).
Proof.
  eapply Sorted_mono; [|apply (sorted_by_sorted (fun c : N => c) N.leb)].
  - intros a b Hab. unfold key_le in Hab. by apply N.leb_le.
  - intros a b. rewrite !N.leb_le. lia.
Qed.

Lemma sorted_chars_perm (x : str) : sorted N.leb x ≡ₚ x.
Proof. apply sorted_by_perm. Qed.

Lemma sorted_chars_unique (x s : str) :
  Sorted N.le s -> s ≡ₚ x -> s = sorted N.leb x.
Proof.
  intros Hs Hp.
  assert (Transitive N.le) by (intros a b c; lia).
  assert (AntiSymm (=) N.le) by (intros a b; lia).
  apply (Sorted_unique N.le); [done|apply sorted_chars_le|].
  by rewrite Hp, sorted_chars_perm.
Qed.

Lemma sorted_chars_idem (x : str) : sorted N.leb (sorted N.leb x) = sorted N.leb x.
Proof.
  apply sorted_by_fixed.
  eapply Sorted_mono; [|apply sorted_chars_le].
  intros a b Hab. unfold key_le. by apply N.leb_le.
Qed.

Lemma join_singletons (l : str) : join [] (List.map (fun c => [c]) l) = l.
Proof.
  induction l as [|c l IH]; [done|].
  destruct l as [|d l]; [done|].
  change (join [] (List.map (fun c => [c]) (c :: d :: l)))
    with ([c] ++ [] ++ join [] (List.map (fun c => [c]) (d :: l))).
  by rewrite IH.
Qed.

(** *** Dictionaries *)

(** For a string of ASCII characters [repr] does not depend on the
    table of printable characters. *)
Lemma repr_char_ascii (p p' : char -> bool) (q c : char) :
  (c < 128)%N -> repr_char p q c = repr_char p' q c.
Proof.
  intros Hc. unfold repr_char.
  destruct ((c =? q)%N || (c =? 92)%N); [done|].
  destruct (c =? 10)%N; [done|]. destruct (c =? 13)%N; [done|].
  destruct (c =? 9)%N; [done|].
  destruct ((c <? 32)%N || (c =? 127)%N) eqn:Hctl; [done|].
  destruct (c <? 127)%N eqn:Hlt; [done|].
  apply orb_false_iff in Hctl as [_ Hdel].
  apply N.eqb_neq in Hdel. apply N.ltb_ge in Hlt. unfold char in *. lia.
Qed.

Lemma repr_str_ascii (p p' : char -> bool) (s : str) :
  Forall (fun c => (c < 128)%N) s -> repr_str p s = repr_str p' s.
Proof.
  intros Hs. unfold repr_str. do 3 f_equal.
  apply Forall_fmap_ext_1. eapply Forall_impl; [exact Hs|].
  intros c Hc. by apply repr_char_ascii.
Qed.

Lemma str_of_list_ascii (p p' : char -> bool) (l : list str) :
  Forall (Forall (fun c => (c < 128)%N)) l -> str_of_list p l = str_of_list p' l.
Proof.
  intros Hl. unfold str_of_list. do 3 f_equal.
  apply Forall_fmap_ext_1. eapply Forall_impl; [exact Hl|].
  intros s Hs. by apply repr_str_ascii.
Qed.

Section DictFacts.
Context {K V : Type} `{EqDecision K}.
Implicit Types (d : dict K V) (k : K) (v : V).

Lemma dict_get_set d k v k' :
  dict_get (dict_set d k v) k' = if decide (k' = k) then Some v else dict_get d k'.
Proof.
  induction d as [|[k0 v0] d IH]; simpl.
  - by destruct (decide (k' = k)).
  - destruct (decide (k = k0)) as [->|Hne]; simpl.
    + by destruct (decide (k' = k0)).
    + destruct (decide (k' = k0)) as [->|Hne'].
      * rewrite decide_False by done. done.
      * apply IH.
Qed.

Lemma dict_keys_set d k v :
  dict_keys (dict_set d k v) =
    if bool_decide (k ∈ dict_keys d) then dict_keys d else dict_keys d ++ [k].
Proof.
  induction d as [|[k0 v0] d IH]; simpl; [done|].
  destruct (decide (k = k0)) as [->|Hne]; simpl.
  - rewrite bool_decide_eq_true_2; [done|by left].
  - rewrite IH. case_bool_decide as Hin.
    + rewrite bool_decide_eq_true_2; [done|by right].
    + rewrite bool_decide_eq_false_2; [done|].
      unfold dict_keys in Hin. rewrite elem_of_cons. intros [?|?]; [done|]. by apply Hin.
Qed.

Lemma dict_get_Some_keys d k : is_Some (dict_get d k) <-> k ∈ dict_keys d.
Proof.
  induction d as [|[k0 v0] d IH]; simpl.
  - split; [by intros [? ?]|by intros ?%elem_of_nil].
  - rewrite elem_of_cons. destruct (decide (k = k0)); simpl.
    + split; eauto.
    + rewrite IH. split; [by right|]. by intros [?|?].
Qed.

Lemma dict_get_elem_of d k v :
  NoDup (dict_keys d) -> dict_get d k = Some v <-> (k, v) ∈ d.
Proof.
  induction d as [|[k0 v0] d IH]; simpl; intros Hnd.
  - split; [done|by intros ?%elem_of_nil].
  - apply NoDup_cons in Hnd as [Hk0 Hnd]. rewrite elem_of_cons.
    destruct (decide (k = k0)) as [->|Hne].
    + split; [intros [= ->]; by left|]. intros [[= ->]|Hin]; [done|].
      destruct Hk0. apply (list_elem_of_fmap_2 fst) in Hin. done.
    + rewrite IH by done. split; [by right|]. intros [[= ? ?]|?]; [done|done].
Qed.

End DictFacts.

Lemma dict_get_setdefault_append {K X : Type} `{EqDecision K}
    (d : dict K (list X)) (k : K) (x : X) (k' : K) :
  dict_get (setdefault_append d k x) k' =
    if decide (k' = k) then Some (default [] (dict_get d k) ++ [x])
    else dict_get d k'.
Proof.
  induction d as [|[k0 g0] d IH]; simpl.
  - by destruct (decide (k' = k)).
  - destruct (decide (k = k0)) as [->|Hne]; simpl.
    + by destruct (decide (k' = k0)).
    + destruct (decide (k' = k0)) as [->|Hne'].
      * by rewrite decide_False by done.
      * apply IH.
Qed.

End PyFacts.

Module FindFacts.
Import Py.

Lemma startswith_prefix (s p : str) : startswith s p = true <-> p `prefix_of` s.
Proof.
  revert s. induction p as [|c p IH]; intros s; simpl.
  - split; [intros _; by exists s|done].
  - destruct s as [|d s].
    + split; [done|]. intros [r Hr]. discriminate.
    + destruct (N.eqb_spec c d) as [->|Hne].
      * rewrite IH. split; intros [r Hr]; exists r; simpl in *; congruence.
      * split; [done|]. intros [r Hr]. simpl in Hr. congruence.
Qed.

Lemma occurs_at_0 (s sub : str) : occurs_at s sub 0 <-> startswith s sub = true.
Proof.
  rewrite startswith_prefix. split.
  - intros (pre & post & -> & Hlen). destruct pre; [|done]. by exists post.
  - intros [post ->]. by exists [], post.
Qed.

Lemma occurs_at_S (c : char) (s sub : str) (k : nat) :
  occurs_at (c :: s) sub (S k) <-> occurs_at s sub k.
Proof.
  split.
  - intros (pre & post & Heq & Hlen). destruct pre as [|d pre]; [done|].
    simpl in *. exists pre, post. split; congruence.
  - intros (pre & post & -> & Hlen). exists (c :: pre), post. simpl. by rewrite Hlen.
Qed.

Lemma occurs_at_nil (sub : str) (k : nat) : occurs_at [] sub k -> k = 0%nat.
Proof. intros (pre & post & Heq & Hlen). destruct pre; [done|discriminate]. Qed.

Lemma find_from_spec (i : nat) (s sub : str) :
  (find_from i s sub = -1 /\ ~ occurs s sub) \/
  (exists k, find_from i s sub = Z.of_nat (i + k) /\ first_occurrence s sub k).
Proof.
  revert i. induction s as [|c s IH]; intros i; simpl.
  - destruct (startswith [] sub) eqn:Hsw.
    + right. exists 0%nat. split; [f_equal; lia|].
      split; [by apply occurs_at_0|lia].
    + left. split; [done|]. intros [k Hk].
      pose proof (occurs_at_nil _ _ Hk) as ->.
      apply occurs_at_0 in Hk. congruence.
  - destruct (startswith (c :: s) sub) eqn:Hsw.
    + right. exists 0%nat. split; [f_equal; lia|].
      split; [by apply occurs_at_0|lia].
    + destruct (IH (S i)) as [[Hf Hno]|(k & Hf & Hocc & Hmin)].
      * left. split; [done|]. intros [[|k] Hk].
        -- apply occurs_at_0 in Hk. congruence.
        -- apply occurs_at_S in Hk. apply Hno. by exists k.
      * right. exists (S k). split; [rewrite Hf; f_equal; lia|].
        split; [by apply occurs_at_S|].
        intros [|j] Hj.
        -- apply occurs_at_0 in Hj. congruence.
        -- apply occurs_at_S, Hmin in Hj. lia.
Qed.

Lemma find_spec (s sub : str) :
  (find s sub = -1 /\ ~ occurs s sub) \/
  (exists k, find s sub = Z.of_nat k /\ first_occurrence s sub k).
Proof. apply (find_from_spec 0). Qed.

Lemma find_absent (s sub : str) : find s sub = -1 <-> ~ occurs s sub.
Proof.
  destruct (find_spec s sub) as [[Hf Hno]|(k & Hf & Hocc & _)].
  - tauto.
  - split; [lia|]. intros Hno. destruct Hno. by exists k.
Qed.

Lemma find_occurs (s sub : str) : find s sub <> -1 -> occurs s sub.
Proof.
  intros Hf. destruct (find_spec s sub) as [[Hno _]|(k & _ & Hk & _)]; [done|].
  by exists k.
Qed.

Lemma find_present (s sub : str) :
  occurs s sub -> exists k, find s sub = Z.of_nat k /\ first_occurrence s sub k.
Proof.
  intros Hocc. destruct (find_spec s sub) as [[_ Hno]|Hk]; [done|exact Hk].
Qed.

Lemma first_occurrence_unique (s sub : str) (j k : nat) :
  first_occurrence s sub j -> first_occurrence s sub k -> j = k.
Proof. intros [Hj Hjmin] [Hk Hkmin]. apply Hjmin in Hk. apply Hkmin in Hj. lia. Qed.

Lemma find_first (s sub : str) (k : nat) :
  first_occurrence s sub k -> find s sub = Z.of_nat k.
Proof.
  intros Hk. destruct (find_present s sub) as (j & Hf & Hj).
  - destruct Hk as [Hk _]. by exists k.
  - by rewrite Hf, (first_occurrence_unique _ _ _ _ Hj Hk).
Qed.

Lemma occurs_at_length (s sub : str) (k : nat) :
  occurs_at s sub k -> (k + length sub <= length s)%nat.
Proof. intros (pre & post & -> & <-). rewrite !length_app. lia. Qed.

Lemma slice_to_nat {A : Type} (s : list A) (k : nat) :
  slice_to s (Z.of_nat k) = take k s.
Proof.
  unfold slice_to, slice_bound.
  destruct (Z.ltb_spec (Z.of_nat k) 0); [lia|].
  rewrite Nat2Z.id. destruct (Nat.min_spec k (length s)) as [[_ ->]|[Hle ->]]; [done|].
  by rewrite firstn_all, take_ge.
Qed.

Lemma slice_from_nat {A : Type} (s : list A) (k : nat) :
  slice_from s (Z.of_nat k) = drop k s.
Proof.
  unfold slice_from, slice_bound.
  destruct (Z.ltb_spec (Z.of_nat k) 0); [lia|].
  rewrite Nat2Z.id. destruct (Nat.min_spec k (length s)) as [[_ ->]|[Hle ->]]; [done|].
  by rewrite drop_all, drop_ge.
Qed.

End FindFacts.

(** ** The anagram script *)

Module AnagramFacts.
Import Py PyFacts Anagram.

Lemma signature_sorted (x : str) : signature x = sorted N.leb x.
Proof. apply join_singletons. Qed.

Lemma signature_idem (x : str) : signature (signature x) = signature x.
Proof. rewrite !signature_sorted. apply sorted_chars_idem. Qed.

(** *** The dict comprehension *)

Lemma fold_pairs_get (words : list str) (d0 : dict str str) (k : str) :
  dict_get (fold_left pairs_step words d0) k =
    if bool_decide (k ∈ words) then Some (signature k) else dict_get d0 k.
Proof.
  revert d0. induction words as [|x words IH]; intros d0; cbn [fold_left]; [done|].
  rewrite IH. unfold pairs_step. rewrite dict_get_set.
  case_bool_decide as Hin.
  - rewrite bool_decide_eq_true_2; [done|by right].
  - destruct (decide (k = x)) as [->|Hne].
    + rewrite bool_decide_eq_true_2; [done|by left].
    + rewrite bool_decide_eq_false_2; [done|].
      rewrite elem_of_cons. tauto.
Qed.

Lemma fold_pairs_NoDup (words : list str) (d0 : dict str str) :
  NoDup (dict_keys d0) -> NoDup (dict_keys (fold_left pairs_step words d0)).
Proof.
  revert d0. induction words as [|x words IH]; intros d0 Hnd; cbn [fold_left]; [done|].
  apply IH. unfold pairs_step. rewrite dict_keys_set.
  case_bool_decide as Hin; [done|].
  apply NoDup_app. split; [done|]. split; [|apply NoDup_singleton].
  intros y Hy ->%list_elem_of_singleton. done.
Qed.

Lemma build_Pairs_get (words : list str) (k : str) :
  dict_get (build_Pairs words) k =
    if bool_decide (k ∈ words) then Some (signature k) else None.
Proof. apply (fold_pairs_get words []). Qed.

Lemma build_Pairs_NoDup (words : list str) : NoDup (dict_keys (build_Pairs words)).
Proof. apply (fold_pairs_NoDup words []). constructor. Qed.

Lemma build_Pairs_elem_of (words : list str) (k v : str) :
  (k, v) ∈ build_Pairs words <-> k ∈ words /\ v = signature k.
Proof.
  rewrite <- dict_get_elem_of by apply build_Pairs_NoDup.
  rewrite build_Pairs_get. case_bool_decide; split.
  - intros [= <-]. done.
  - intros [_ ->]. done.
  - done.
  - tauto.
Qed.

(** *** The grouping loop *)

Lemma elem_of_group_of (pairs : dict str str) (key k : str) :
  k ∈ group_of pairs key <-> (k, key) ∈ pairs.
Proof.
  unfold group_of. rewrite list_elem_of_fmap. split.
  - intros ([k' v] & -> & [Hv Hin]%list_elem_of_filter). simpl in *. by subst.
  - intros Hin. exists (k, key). split; [done|]. by apply list_elem_of_filter.
Qed.

Lemma group_of_cons (k v : str) (pairs : dict str str) (key : str) :
  group_of ((k, v) :: pairs) key =
    if decide (v = key) then k :: group_of pairs key else group_of pairs key.
Proof.
  unfold group_of. rewrite filter_cons. cbn [snd].
  by destruct (decide (v = key)).
Qed.

Lemma fold_anagrams_get (words : list str) (pairs : dict str str)
    (A0 : dict str (list str)) (key : str) :
  dict_get (fold_left (anagrams_step words) pairs A0) key =
    match dict_get A0 key,
          (if bool_decide (key ∈ words) then group_of pairs key else []) with
    | None, [] => None
    | og, extra => Some (default [] og ++ extra)
    end.
Proof.
  revert A0. induction pairs as [|[k v] pairs IH]; intros A0.
  - simpl. replace (if bool_decide (key ∈ words) then group_of [] key else [])
      with (@nil str) by (by case_bool_decide).
    destruct (dict_get A0 key); simpl; [by rewrite app_nil_r|done].
  - cbn [fold_left]. rewrite IH. clear IH.
    rewrite group_of_cons. unfold anagrams_step. cbn [fst snd].
    destruct (decide (v = key)) as [->|Hne].
    + case_bool_decide as Hin; [|done].
      rewrite dict_get_setdefault_append, decide_True by done.
      destruct (dict_get A0 key) as [g0|]; unfold default, id.
      * by rewrite <- app_assoc.
      * done.
    + case_bool_decide as Hv; [|done].
      rewrite dict_get_setdefault_append, decide_False by done. done.
Qed.

Lemma build_Anagrams_get (words : list str) (pairs : dict str str) (key : str) :
  dict_get (build_Anagrams words pairs) key =
    if bool_decide (key ∈ words /\ group_of pairs key <> [])
    then Some (group_of pairs key) else None.
Proof.
  unfold build_Anagrams. rewrite (fold_anagrams_get words pairs [] key). simpl.
  case_bool_decide as Hin.
  - destruct (group_of pairs key) eqn:Hg.
    + rewrite bool_decide_eq_false_2; [done|tauto].
    + rewrite bool_decide_eq_true_2; done.
  - rewrite bool_decide_eq_false_2; [done|tauto].
Qed.

Lemma build_Anagrams_group (words : list str) (key : str) (g : list str) :
  dict_get (build_Anagrams words (build_Pairs words)) key = Some g ->
  key ∈ words /\ g <> [] /\ forall w, w ∈ g <-> w ∈ words /\ signature w = key.
Proof.
  rewrite build_Anagrams_get. case_bool_decide as Hk; [|done].
  intros [= <-]. destruct Hk as [Hin Hne]. do 2 (split; [done|]).
  intros w. rewrite elem_of_group_of, build_Pairs_elem_of.
  split; [intros [? ->]|intros [? <-]]; done.
Qed.

Lemma build_Anagrams_lookup (words : list str) (w : str) :
  w ∈ words -> signature w ∈ words ->
  exists g, dict_get (build_Anagrams words (build_Pairs words)) (signature w) = Some g
            /\ w ∈ g.
Proof.
  intros Hw Hs.
  assert (w ∈ group_of (build_Pairs words) (signature w)) as Hg.
  { apply elem_of_group_of, build_Pairs_elem_of. done. }
  exists (group_of (build_Pairs words) (signature w)). split; [|done].
  rewrite build_Anagrams_get, bool_decide_eq_true_2; [done|].
  split; [done|]. intros Hnil. rewrite Hnil in Hg. by apply elem_of_nil in Hg.
Qed.

Lemma same_group_iff (words : list str) (w1 w2 : str) :
  w1 ∈ words -> w2 ∈ words ->
  same_group (build_Anagrams words (build_Pairs words)) w1 w2 <->
  signature w1 = signature w2 /\ signature w1 ∈ words.
Proof.
  intros H1 H2. split.
  - intros (k & g & Hg & Hw1 & Hw2).
    destruct (build_Anagrams_group _ _ _ Hg) as (Hk & _ & Hmem).
    apply Hmem in Hw1 as [_ E1]. apply Hmem in Hw2 as [_ E2].
    split; congruence.
  - intros [E Hs].
    destruct (build_Anagrams_lookup words w1 H1 Hs) as (g & Hg & Hw1).
    exists (signature w1), g. do 2 (split; [done|]).
    destruct (build_Anagrams_group _ _ _ Hg) as (_ & _ & Hmem).
    apply Hmem. done.
Qed.

Lemma anagram_key_facts (words : list str) (k : str) :
  k ∈ dict_keys (build_Anagrams words (build_Pairs words)) ->
  signature k = k /\ k ∈ words /\
  exists g, dict_get (build_Anagrams words (build_Pairs words)) k = Some g /\ k ∈ g.
Proof.
  intros [g Hg]%dict_get_Some_keys.
  destruct (build_Anagrams_group _ _ _ Hg) as (Hk & Hne & Hmem).
  assert (signature k = k) as Hfix.
  { destruct g as [|w g]; [done|].
    destruct (Hmem w) as [[_ <-] _]; [by left|]. apply signature_idem. }
  do 2 (split; [done|]). exists g. split; [done|]. apply Hmem. done.
Qed.

(** [dog] and [god] share the signature [dgo], which is no word of the
    dictionary: they are in no group. *)
Example dog_god_not_grouped : ~ same_group Anagrams (u "dog") (u "god").
Proof.
  intros Hg. apply (same_group_iff mDictionary) in Hg as [_ Hin].
  - revert Hin. apply (bool_decide_unpack _). by vm_compute.
  - apply (bool_decide_unpack _). by vm_compute.
  - apply (bool_decide_unpack _). by vm_compute.
Qed.

(** The words of the dictionary are ASCII: their [repr] needs no table
    of printable characters. *)
Lemma mDictionary_ascii : Forall (Forall (fun c => (c < 128)%N)) mDictionary.
Proof. apply (bool_decide_unpack _). vm_compute. exact I. Qed.

Lemma mDictionary_repr (printable : char -> bool) (l : list str) :
  l ⊆ mDictionary -> str_of_list printable l = str_of_list no_table l.
Proof.
  intros Hl. apply str_of_list_ascii. apply Forall_forall. intros word Hword.
  pose proof mDictionary_ascii as Hascii. rewrite Forall_forall in Hascii.
  apply Hascii, Hl, Hword.
Qed.

End AnagramFacts.

Module AnagramSpec.
Import Py PyFacts Anagram AnagramFacts.

(** C1.  Two words of [mDictionary] lie in one group list of [Anagrams]
    exactly when their sorted-character signatures are equal and that
    signature is itself a word of [mDictionary]. *)
Theorem grouped_iff_signature_in_dictionary (w1 w2 : str) :
  w1 ∈ mDictionary -> w2 ∈ mDictionary ->
  (same_group Anagrams w1 w2 <->
   signature w1 = signature w2 /\ signature w1 ∈ mDictionary).
Proof. apply same_group_iff. Qed.

Lemma grouped_act_cat : same_group Anagrams (u "act") (u "cat").
Proof.
  apply (grouped_iff_signature_in_dictionary (u "act") (u "cat")).
  - apply (bool_decide_unpack _). vm_compute. exact I.
  - apply (bool_decide_unpack _). vm_compute. exact I.
  - split.
    + vm_compute. reflexivity.
    + apply (bool_decide_unpack _). vm_compute. exact I.
Defined.

(** C8.  [Pairs] gives every word of [mDictionary] one signature and no
    other: the one arrangement of the word's characters in non-decreasing
    order.  No key occurs twice, and building the mapping again from the
    same list gives the same mapping. *)
Theorem Pairs_signature (w : str) :
  w ∈ mDictionary ->
  dict_get Pairs w = Some (signature w) /\
  (forall v, (w, v) ∈ Pairs <-> v = signature w) /\
  NoDup (dict_keys Pairs) /\
  Sorted N.le (signature w) /\ signature w ≡ₚ w /\
  (forall s, Sorted N.le s -> s ≡ₚ w -> s = signature w) /\
  (forall words, words = mDictionary -> build_Pairs words = Pairs).
Proof.
  intros Hw. unfold Pairs. repeat split.
  - rewrite build_Pairs_get, bool_decide_eq_true_2; done.
  - intros Hin. apply build_Pairs_elem_of in Hin. tauto.
  - intros ->. by apply build_Pairs_elem_of.
  - apply build_Pairs_NoDup.
  - rewrite signature_sorted. apply sorted_chars_le.
  - rewrite signature_sorted. apply sorted_chars_perm.
  - intros s Hs Hp. rewrite signature_sorted. by apply sorted_chars_unique.
  - by intros words ->.
Qed.

Lemma Pairs_signature_dear :
  dict_get Pairs (u "dear") = Some (u "ader") /\
  (forall v, (u "dear", v) ∈ Pairs <-> v = u "ader").
Proof.
  assert (u "dear" ∈ mDictionary) as Hw.
  { apply (bool_decide_unpack _). vm_compute. exact I. }
  pose proof (Pairs_signature (u "dear") Hw) as (Hget & Hone & _).
  split; [exact Hget|exact Hone].
Defined.

(** C9.  Every key of [Anagrams] is its own signature, with its
    characters in non-decreasing order, is a word of [mDictionary], and is
    an element of the group list stored under it. *)
Theorem Anagrams_keys (k : str) :
  k ∈ dict_keys Anagrams ->
  signature k = k /\ Sorted N.le k /\ k ∈ mDictionary /\
  exists g, dict_get Anagrams k = Some g /\ k ∈ g.
Proof.
  intros Hk. destruct (anagram_key_facts mDictionary k Hk) as (Hfix & Hin & Hg).
  split; [done|]. split; [|done].
  rewrite <- Hfix, signature_sorted. apply sorted_chars_le.
Qed.

Lemma Anagrams_key_art :
  signature (u "art") = u "art" /\ Sorted N.le (u "art") /\ u "art" ∈ mDictionary /\
  exists g, dict_get Anagrams (u "art") = Some g /\ u "art" ∈ g.
Proof.
  apply (Anagrams_keys (u "art")).
  apply (bool_decide_unpack _). vm_compute. exact I.
Defined.

(** C4.  The script takes no input.  A run prints the label of [Pairs]
    and under it one line for each of the 43 entries of [Pairs], then the
    label of the loop that fills [Anagrams], which prints nothing, then
    the label of [Anagrams] and under it one line for each of its 12
    entries; nothing else is printed.  The labels that head printed lines
    are these two: the output consists of exactly two labeled sections.
    The run ends normally, so the exit status is 0. *)
Theorem script_output :
  run.1 = Ok tt /\
  exit_status run.1 = 0 /\
  run.2 = [label_Pairs]
          ++ List.map (fun kv => kv.1 ++ u " " ++ kv.2) Pairs
          ++ [label_Find; label_Anagrams]
          ++ List.map (fun kv => kv.1 ++ u " " ++ str_of_list no_table kv.2) Anagrams /\
  length Pairs = 43%nat /\ length Anagrams = 12%nat /\
  (split_sections run.2).1 = [] /\
  labeled_sections run.2 =
    [(label_Pairs, List.map (fun kv => kv.1 ++ u " " ++ kv.2) Pairs);
     (label_Anagrams, List.map (fun kv => kv.1 ++ u " " ++ str_of_list no_table kv.2) Anagrams)] /\
  length (labeled_sections run.2) = 2%nat.
Proof. vm_compute. repeat split. Qed.

End AnagramSpec.

(** ** The documentation updater *)

Module TextFacts.
Import Py.

(** *** Text mode *)

Lemma universal_newlines_go_no_cr (b : bool) (raw : list N) :
  13%N ∉ universal_newlines_go b raw.
Proof.
  revert b. induction raw as [|c raw IH]; intros b; simpl; [apply not_elem_of_nil|].
  destruct (N.eqb_spec c 13) as [->|Hc].
  - apply not_elem_of_cons. split; [done|apply IH].
  - destruct ((c =? 10)%N && b); [apply IH|].
    apply not_elem_of_cons. split; [congruence|apply IH].
Qed.

Lemma universal_newlines_no_cr (raw : list N) : 13%N ∉ universal_newlines raw.
Proof. apply universal_newlines_go_no_cr. Qed.

Lemma universal_newlines_id (raw : list N) :
  13%N ∉ raw -> universal_newlines raw = raw.
Proof.
  unfold universal_newlines. induction raw as [|c raw IH]; [done|].
  intros [Hc Hraw]%not_elem_of_cons. simpl.
  destruct (N.eqb_spec c 13) as [->|_]; [done|].
  rewrite andb_false_r. by rewrite IH.
Qed.

Lemma write_newlines_app (linesep a b : list N) :
  write_newlines linesep (a ++ b) = write_newlines linesep a ++ write_newlines linesep b.
Proof. unfold write_newlines. by rewrite map_app, concat_app. Qed.

Lemma write_newlines_lf (text : list N) : write_newlines [10%N] text = text.
Proof.
  unfold write_newlines. induction text as [|c text IH]; [done|]. simpl.
  rewrite IH. by destruct (N.eqb_spec c 10) as [->|_].
Qed.

Lemma write_newlines_plain (linesep m : list N) :
  10%N ∉ m -> write_newlines linesep m = m.
Proof.
  unfold write_newlines. induction m as [|c m IH]; [done|].
  intros [Hc Hm]%not_elem_of_cons. simpl. rewrite IH by done.
  by destruct (N.eqb_spec c 10) as [->|_].
Qed.

(** Reading back what was written gives the text that was written, as
    long as it holds no carriage return. *)
Lemma read_back (crlf : bool) (text : list N) :
  13%N ∉ text ->
  universal_newlines
    (write_newlines (if crlf then [13%N; 10%N] else [10%N]) text) = text.
Proof.
  intros Hcr. destruct crlf.
  - unfold universal_newlines, write_newlines.
    induction text as [|c text IH]; [done|].
    apply not_elem_of_cons in Hcr as [Hc Hcr]. simpl.
    destruct (N.eqb_spec c 10) as [->|Hnl].
    + simpl. by rewrite IH.
    + simpl. destruct (N.eqb_spec c 13) as [->|_]; [done|].
      destruct (N.eqb_spec c 10) as [->|_]; [done|]. simpl. by rewrite IH.
  - rewrite write_newlines_lf. by apply universal_newlines_id.
Qed.

(** A piece of text without line ends is read where it stands. *)
Lemma universal_newlines_go_plain (m rest : list N) :
  10%N ∉ m -> 13%N ∉ m ->
  universal_newlines_go false (m ++ rest) = m ++ universal_newlines_go false rest.
Proof.
  induction m as [|c m IH]; [done|].
  intros [Hnl Hm]%not_elem_of_cons [Hcr Hm']%not_elem_of_cons. simpl.
  destruct (N.eqb_spec c 13) as [->|_]; [done|].
  rewrite andb_false_r. by rewrite IH.
Qed.

Lemma universal_newlines_go_middle (b : bool) (pre m rest : list N) :
  m <> [] -> 10%N ∉ m -> 13%N ∉ m ->
  universal_newlines_go b (pre ++ m ++ rest)
  = universal_newlines_go b pre ++ m ++ universal_newlines_go false rest.
Proof.
  intros Hne Hnl Hcr. revert b. induction pre as [|c pre IH]; intros b.
  - destruct m as [|x m]; [done|]. simpl.
    apply not_elem_of_cons in Hnl as [Hx Hnl]. apply not_elem_of_cons in Hcr as [Hx' Hcr].
    destruct (N.eqb_spec x 13) as [->|_]; [done|].
    destruct (N.eqb_spec x 10) as [->|_]; [done|]. simpl.
    by rewrite universal_newlines_go_plain.
  - simpl. destruct (N.eqb_spec c 13) as [->|_]; [by rewrite IH|].
    destruct ((c =? 10)%N && b); by rewrite IH.
Qed.

Lemma occurs_read_back (linesep text m : list N) :
  m <> [] -> 10%N ∉ m -> 13%N ∉ m ->
  occurs text m -> occurs (universal_newlines (write_newlines linesep text)) m.
Proof.
  intros Hne Hnl Hcr (k & pre & rest & -> & _).
  rewrite !write_newlines_app, (write_newlines_plain _ m Hnl).
  unfold universal_newlines. rewrite universal_newlines_go_middle by done.
  eexists _, _, _. split; [reflexivity|done].
Qed.

End TextFacts.

Module UpdateFacts.
Import Py PyFacts FindFacts UpdateDocumentation TextFacts.
#[local] Opaque u repeat_str.
Local Open Scope py_scope.

(** *** States and what a computation does to them *)

Lemma same_files_refl (w : World) : same_files w w.
Proof. by repeat split. Qed.

Lemma same_files_sym (w w' : World) : same_files w w' -> same_files w' w.
Proof. intros (? & ? & ? & ?). by repeat split. Qed.

Lemma same_files_trans (w1 w2 w3 : World) :
  same_files w1 w2 -> same_files w2 w3 -> same_files w1 w3.
Proof. intros (? & ? & ? & ?) (? & ? & ? & ?). repeat split; congruence. Qed.

Lemma touch_touch (r t r' t' : option file) (out err out' err' : list str) (x : World) :
  touch r' t' out' err' (touch r t out err x)
  = touch r' t' (out ++ out') (err ++ err') x.
Proof. unfold touch. cbn. by rewrite <- !app_assoc. Qed.

Lemma touch_same (w x : World) :
  same_files w x -> touch (readme w) (template w) [] [] x = x.
Proof.
  intros (_ & Hr & Ht & _). destruct x. unfold touch. cbn in *.
  by rewrite Hr, Ht, !app_nil_r.
Qed.

Lemma same_files_touch (r t : option file) (out err out' err' : list str) (w x : World) :
  same_files w x -> same_files (touch r t out err w) (touch r t out' err' x).
Proof. intros (? & ? & ? & ?). by repeat split. Qed.

Lemma same_files_printed (out err : list str) (w : World) :
  same_files w (touch (readme w) (template w) out err w).
Proof. by repeat split. Qed.

Section Rules.
Context {A : Type}.
Implicit Types (w : World) (m : M World A).
Implicit Types (Q : result A -> option file -> option file -> list str -> list str -> Prop).

Lemma acts_run m w Q :
  acts m w Q ->
  exists res r t out err, m w = (res, touch r t out err w) /\ Q res r t out err.
Proof.
  intros (res & r & t & out & err & Hm & HQ). exists res, r, t, out, err.
  split; [apply Hm, same_files_refl|done].
Qed.

Lemma acts_mono m w Q Q' :
  acts m w Q -> (forall res r t out err, Q res r t out err -> Q' res r t out err) ->
  acts m w Q'.
Proof.
  intros (res & r & t & out & err & Hm & HQ) Himp.
  exists res, r, t, out, err. auto.
Qed.

Lemma acts_base m w w' Q : same_files w w' -> acts m w Q -> acts m w' Q.
Proof.
  intros Hw (res & r & t & out & err & Hm & HQ). exists res, r, t, out, err.
  split; [|done]. intros x Hx. apply Hm. exact (same_files_trans _ _ _ Hw Hx).
Qed.

Lemma acts_ret (a : A) w Q :
  Q (Ok a) (readme w) (template w) [] [] -> acts (ret a) w Q.
Proof.
  intros HQ. exists (Ok a), (readme w), (template w), [], []. split; [|done].
  intros x Hx. unfold ret. by rewrite touch_same.
Qed.

Lemma acts_raise (e : exn) w Q :
  Q (Raise e) (readme w) (template w) [] [] -> acts (raise e) w Q.
Proof.
  intros HQ. exists (Raise e), (readme w), (template w), [], []. split; [|done].
  intros x Hx. unfold raise. by rewrite touch_same.
Qed.

End Rules.

Lemma acts_bind {A B} (m : M World A) (k : A -> M World B) (w : World)
    (Q : result B -> option file -> option file -> list str -> list str -> Prop) :
  acts m w (fun res r t out err =>
    match res with
    | Ok a =>
        acts (k a) (touch r t out err w)
          (fun res' r' t' out' err' => Q res' r' t' (out ++ out') (err ++ err'))
    | Raise e => Q (Raise e) r t out err
    end) ->
  acts (bind m k) w Q.
Proof.
  intros (res & r & t & out & err & Hm & HQ). destruct res as [a|e].
  - destruct HQ as (res' & r' & t' & out' & err' & Hk & HQ).
    exists res', r', t', (out ++ out'), (err ++ err'). split; [|done].
    intros x Hx. unfold bind. rewrite (Hm x Hx).
    rewrite (Hk (touch r t out err x)) by (by apply same_files_touch).
    by rewrite touch_touch.
  - exists (Raise e), r, t, out, err. split; [|done].
    intros x Hx. unfold bind. by rewrite (Hm x Hx).
Qed.

Lemma acts_try_except {A} (body : M World A) (handles : exn -> bool)
    (handler : exn -> M World A) (w : World)
    (Q : result A -> option file -> option file -> list str -> list str -> Prop) :
  acts body w (fun res r t out err =>
    match res with
    | Ok a => Q (Ok a) r t out err
    | Raise e =>
        if handles e then
          acts (handler e) (touch r t out err w)
            (fun res' r' t' out' err' => Q res' r' t' (out ++ out') (err ++ err'))
        else Q (Raise e) r t out err
    end) ->
  acts (try_except body handles handler) w Q.
Proof.
  intros (res & r & t & out & err & Hm & HQ). destruct res as [a|e].
  - exists (Ok a), r, t, out, err. split; [|done].
    intros x Hx. unfold try_except. by rewrite (Hm x Hx).
  - destruct (handles e) eqn:He.
    + destruct HQ as (res' & r' & t' & out' & err' & Hk & HQ).
      exists res', r', t', (out ++ out'), (err ++ err'). split; [|done].
      intros x Hx. unfold try_except. rewrite (Hm x Hx), He.
      rewrite (Hk (touch r t out err x)) by (by apply same_files_touch).
      by rewrite touch_touch.
    + exists (Raise e), r, t, out, err. split; [|done].
      intros x Hx. unfold try_except. by rewrite (Hm x Hx), He.
Qed.

(** A step that reads the state, for what it holds of the files. *)
Lemma acts_get {B} (k : World -> M World B) (w : World)
    (Q : result B -> option file -> option file -> list str -> list str -> Prop) :
  (forall x y, same_files w x -> k x y = k w y) ->
  acts (k w) w Q -> acts (bind get k) w Q.
Proof.
  intros Hk (res & r & t & out & err & Hm & HQ). exists res, r, t, out, err.
  split; [|done]. intros x Hx. unfold bind, get. rewrite (Hk x x Hx). by apply Hm.
Qed.

(** A step that prints one line, and a step that only prints. *)
Lemma acts_print (line : str) (w : World)
    (Q : result unit -> option file -> option file -> list str -> list str -> Prop) :
  Q (Ok tt) (readme w) (template w) [line] [] -> acts (print_ line) w Q.
Proof.
  intros HQ. exists (Ok tt), (readme w), (template w), [line], []. split; [|done].
  intros x (_ & Hr & Ht & _). unfold print_, modify, touch.
  by rewrite Hr, Ht, app_nil_r.
Qed.

Lemma acts_eprint (line : str) (w : World)
    (Q : result unit -> option file -> option file -> list str -> list str -> Prop) :
  Q (Ok tt) (readme w) (template w) [] [line] -> acts (eprint line) w Q.
Proof.
  intros HQ. exists (Ok tt), (readme w), (template w), [], [line]. split; [|done].
  intros x (_ & Hr & Ht & _). unfold eprint, modify, touch.
  by rewrite Hr, Ht, app_nil_r.
Qed.

Lemma acts_then_print {B} (line : str) (k : M World B) (w : World)
    (Q : result B -> option file -> option file -> list str -> list str -> Prop) :
  acts k w (fun res r t out err => Q res r t (line :: out) err) ->
  acts (print_ line ;;; k) w Q.
Proof.
  intros Hk. apply acts_bind, acts_print.
  eapply acts_base; [apply same_files_printed|]. exact Hk.
Qed.

Lemma acts_then_eprint {B} (line : str) (k : M World B) (w : World)
    (Q : result B -> option file -> option file -> list str -> list str -> Prop) :
  acts k w (fun res r t out err => Q res r t out (line :: err)) ->
  acts (eprint line ;;; k) w Q.
Proof.
  intros Hk. apply acts_bind, acts_eprint.
  eapply acts_base; [apply same_files_printed|]. exact Hk.
Qed.







Section Facts.
Context `{Host}.

(** *** The source listing *)

Lemma glob_elem_of (w : World) (ext f : str) :
  f ∈ glob w ext <->
  exists entries, src_dir w = Some entries /\ f ∈ dict_keys entries
                  /\ endswith f ext = true.
Proof.
  unfold glob. destruct (src_dir w) as [entries|].
  - rewrite list_elem_of_In, filter_In, <- list_elem_of_In. split.
    + intros [Hin He]. by exists entries.
    + intros (entries' & [= <-] & Hin & He). done.
  - split; [by intros ?%elem_of_nil|]. by intros (? & ? & _).
Qed.

Lemma endswith_nonempty (f ext : str) : ext <> [] -> endswith f ext = true -> f <> [].
Proof.
  intros Hext He ->. unfold endswith in He. simpl in He.
  destruct (rev ext) as [|c r] eqn:Hr; [|done].
  apply (f_equal (@rev _)) in Hr. rewrite rev_involutive in Hr. done.
Qed.

Lemma get_all_source_files_elem_of (w : World) (f : str) (p : Path) :
  (f, p) ∈ get_all_source_files w <->
  p = f /\ (f ∈ glob w (u ".cpp") \/ f ∈ glob w (u ".cppm")).
Proof.
  unfold get_all_source_files. rewrite list_elem_of_fmap.
  setoid_rewrite (sorted_by_perm lower str_leb). setoid_rewrite elem_of_app.
  split.
  - intros (x & [= -> ->] & Hx). done.
  - intros [-> Hf]. by exists f.
Qed.

Lemma source_file_listed (w : World) (f : str) (p : Path) :
  (f, p) ∈ get_all_source_files w ->
  p = f /\ f <> [] /\ exists entries, src_dir w = Some entries /\ f ∈ dict_keys entries.
Proof.
  intros [-> Hf]%get_all_source_files_elem_of. split; [done|].
  destruct Hf as [Hf|Hf]; apply glob_elem_of in Hf as (entries & Hs & Hin & He).
  - split; [|by exists entries]. eapply endswith_nonempty; [|exact He]. by vm_compute.
  - split; [|by exists entries]. eapply endswith_nonempty; [|exact He]. by vm_compute.
Qed.

(** What is computed from the files is the same in two states with the
    same files. *)
Lemma glob_files (w x : World) (ext : str) :
  same_files w x -> glob x ext = glob w ext.
Proof. intros (Hs & _). unfold glob. by rewrite Hs. Qed.

Lemma get_all_source_files_files (w x : World) :
  same_files w x -> get_all_source_files x = get_all_source_files w.
Proof. intros Hx. unfold get_all_source_files. by rewrite !(glob_files w x _ Hx). Qed.

Lemma source_name_files (w x : World) (f : str) :
  same_files w x -> source_name x f <-> source_name w f.
Proof. intros Hx. unfold source_name. by rewrite !(glob_files w x _ Hx). Qed.

Lemma source_file_files (w x : World) (p : Path) :
  same_files w x -> source_file x p = source_file w p.
Proof. intros (Hs & _). unfold source_file. by rewrite Hs. Qed.

Lemma read_warnings_files (w x : World) (paths : list Path) :
  same_files w x -> read_warnings x paths = read_warnings w paths.
Proof.
  intros Hx. unfold read_warnings. induction paths as [|p paths IH]; [done|].
  cbn [flat_map]. by rewrite IH, (source_file_files w x p Hx).
Qed.

Lemma source_warnings_files (w x : World) :
  same_files w x -> source_warnings x = source_warnings w.
Proof.
  intros Hx. unfold source_warnings.
  by rewrite (get_all_source_files_files w x Hx), (read_warnings_files w x _ Hx).
Qed.

Lemma read_warnings_app (w : World) (ps qs : list Path) :
  read_warnings w (ps ++ qs) = read_warnings w ps ++ read_warnings w qs.
Proof. unfold read_warnings. apply flat_map_app. Qed.

Lemma read_warnings_readable (w : World) (paths : list Path) :
  read_warnings w paths = [] <->
  forall p, p ∈ paths -> exists text, read_text (path_str p) (source_file w p) = Ok text.
Proof.
  unfold read_warnings. induction paths as [|p paths IH]; cbn [flat_map].
  - split; [|done]. by intros _ p ?%elem_of_nil.
  - destruct (read_text (path_str p) (source_file w p)) as [text|e] eqn:Hp.
    + cbn [app]. rewrite IH. split.
      * intros Hall q [->|Hq]%elem_of_cons; [by exists text|by apply Hall].
      * intros Hall q Hq. apply Hall. by right.
    + split; [done|]. intros Hall.
      destruct (Hall p) as [text Ht]; [by left|]. congruence.
Qed.

(** *** Reading and describing a source *)

Lemma acts_read_source (p : Path) (w : World)
    (Q : result str -> option file -> option file -> list str -> list str -> Prop) :
  Q (read_text (path_str p) (source_file w p)) (readme w) (template w) [] [] ->
  acts (read_source p) w Q.
Proof.
  intros HQ. eexists _, _, _, _, _. split; [|exact HQ].
  intros x Hx. unfold read_source.
  by rewrite (source_file_files w x p Hx), touch_same.
Qed.

Lemma acts_extract_file_description (p : Path) (w : World) :
  acts (extract_file_description p) w (fun res r t out err =>
    r = readme w /\ t = template w /\ out = [] /\ err = read_warnings w [p] /\
    exists d k,
      res = Ok (d, k) /\ d <> [] /\
      (forall text,
         read_text (path_str p) (source_file w p) = Ok text ->
         k = (scan_source (hash_seed w) text).2 /\
         (d = (scan_source (hash_seed w) text).1 \/
          (scan_source (hash_seed w) text).1 = [] /\
          d = u "Modern C++ example demonstrating various features")) /\
      (forall e,
         read_text (path_str p) (source_file w p) = Raise e ->
         d = u "C++ example file" /\ k = [])).
Proof.
  unfold extract_file_description, read_warnings. cbn [flat_map].
  apply acts_bind, acts_try_except, acts_bind, acts_read_source.
  destruct (read_text (path_str p) (source_file w p)) as [text|e] eqn:Hread.
  - eapply acts_base; [apply same_files_printed|].
    apply acts_get.
    { intros x y (_ & _ & _ & Hseed). by rewrite Hseed. }
    apply acts_ret. cbn [app]. apply acts_ret. cbn [app fst snd].
    do 4 (split; [done|]).
    destruct (scan_source (hash_seed w) text) as [d k] eqn:Hscan. cbn [fst snd].
    destruct d as [|c d].
    + eexists _, k. split; [reflexivity|]. split; [by vm_compute|]. split.
      * intros ? [= <-]. rewrite Hscan. split; [done|]. by right.
      * intros ? [=].
    + exists (c :: d), k. split; [reflexivity|]. split; [done|]. split.
      * intros ? [= <-]. rewrite Hscan. split; [done|]. by left.
      * intros ? [=].
  - assert (is_Exception e = true) as ->.
    { unfold read_text in Hread.
      destruct (source_file w p) as [[]|]; by inversion Hread. }
    eapply acts_base; [apply same_files_printed|].
    apply acts_then_eprint, acts_ret. cbn [app].
    apply acts_ret. cbn [app fst snd].
    change (u "C++ example file") with (67%N :: tl (u "C++ example file")).
    cbv iota. do 4 (split; [done|]).
    eexists _, _. split; [reflexivity|]. split; [done|]. split; [intros ? [=]|done].
Qed.

(** *** The generated section *)

Lemma acts_section_entry (w : World) (output : list str) (current : option str)
    (n : nat) (f : str) (p : Path) :
  (f, p) ∈ get_all_source_files w ->
  acts (section_entry (output, current, n) (f, p)) w (fun res r t out err =>
    r = readme w /\ t = template w /\ out = [] /\ err = read_warnings w [p] /\
    exists c rest heading tail,
      f = c :: rest /\
      res = Ok (output ++ heading ++ [entry_line n f] ++ tail,
                Some (upper [c]), S n) /\
      (current = Some (upper [c]) \/ heading_line (upper [c]) ∈ heading)).
Proof.
  intros (-> & Hne & _)%source_file_listed.
  destruct f as [|c rest]; [done|].
  unfold section_entry, first_char. apply acts_bind, acts_ret.
  eapply acts_base; [apply same_files_printed|].
  apply acts_bind. eapply acts_mono; [apply acts_extract_file_description|].
  intros res r t out err (-> & -> & -> & -> & d & k & -> & _).
  eapply acts_base; [apply same_files_printed|].
  apply acts_ret. cbn [app]. rewrite app_nil_r.
  do 4 (split; [done|]). exists c, rest.
  case_bool_decide as Hsame.
  - exists [], ([u "   - " ++ d] ++ List.map (fun item => u "   - " ++ item) (take 2 k) ++ [[]]).
    split; [done|]. split; [|by left; symmetry].
    unfold entry_line. by rewrite <- !app_assoc.
  - destruct current as [letter|].
    + exists ([[]] ++ [heading_line (upper [c])]),
        ([u "   - " ++ d] ++ List.map (fun item => u "   - " ++ item) (take 2 k) ++ [[]]).
      split; [done|]. split.
      * unfold entry_line, heading_line. by rewrite <- !app_assoc.
      * right. rewrite elem_of_app, list_elem_of_singleton. by right.
    + exists [heading_line (upper [c])],
        ([u "   - " ++ d] ++ List.map (fun item => u "   - " ++ item) (take 2 k) ++ [[]]).
      split; [done|]. split.
      * unfold entry_line, heading_line. by rewrite <- !app_assoc.
      * right. by apply list_elem_of_singleton.
Qed.

Lemma acts_section_loop (w : World) (files : list (str * Path))
    (output : list str) (current : option str) (n : nat) :
  (forall file, file ∈ files -> file ∈ get_all_source_files w) ->
  (forall letter, current = Some letter -> heading_line letter ∈ output) ->
  acts (section_loop files (output, current, n)) w (fun res r t out err =>
    r = readme w /\ t = template w /\ out = [] /\
    err = read_warnings w (List.map snd files) /\
    exists output' current',
      res = Ok (output', current', (n + length files)%nat) /\
      output `prefix_of` output' /\
      (forall i f p, files !! i = Some (f, p) ->
         exists before after,
           output' = before ++ [entry_line (n + i) f] ++ after) /\
      (forall c rest p, (c :: rest, p) ∈ files ->
         heading_line (upper [c]) ∈ output')).
Proof.
  revert output current n.
  induction files as [|[f p] files IH]; intros output current n Hall Hcur.
  - apply acts_ret. do 4 (split; [done|]). exists output, current.
    rewrite Nat.add_0_r. split; [done|]. split; [done|]. split.
    + intros i f p Hi. by rewrite lookup_nil in Hi.
    + by intros c rest p ?%elem_of_nil.
  - cbn [section_loop]. apply acts_bind.
    eapply acts_mono; [apply acts_section_entry, Hall; by left|].
    intros res r t out err (-> & -> & -> & -> & c & rest & heading & tail & -> & -> & Hhead).
    eapply acts_base; [apply same_files_printed|].
    eapply acts_mono; [apply IH|..].
    + intros file Hfile. apply Hall. by right.
    + intros letter [= <-]. rewrite !elem_of_app.
      destruct Hhead as [Hsame|Hhead]; [left; by apply Hcur|right; by left].
    + cbv beta. intros res r t out err
        (-> & -> & -> & -> & output' & current' & -> & Hpre & Hlines & Hheads).
      do 3 (split; [done|]).
      split. { unfold read_warnings. cbn [List.map snd flat_map]. by rewrite app_nil_r. }
      exists output', current'. cbn [length].
      replace (n + S (length files))%nat with (S n + length files)%nat by lia.
      split; [done|]. split; [|split].
      * etrans; [|exact Hpre]. by eexists.
      * intros [|i] g q Hi.
        -- injection Hi as <- <-. rewrite Nat.add_0_r. destruct Hpre as [more ->].
           exists (output ++ heading), (tail ++ more). by rewrite <- !app_assoc.
        -- replace (n + S i)%nat with (S n + i)%nat by lia. by apply (Hlines i g q).
      * intros c' rest' q [[= -> -> ->]|Hin]%elem_of_cons; [|by apply (Hheads c' rest' q)].
        destruct Hpre as [more ->]. rewrite !elem_of_app.
        destruct Hhead as [Hsame|Hhead]; [|left; right; by left].
        left. left. by apply Hcur.
Qed.

Lemma acts_generate_alphabetical_section (w : World) :
  acts generate_alphabetical_section w (fun res r t out err =>
    res = Ok (new_section w) /\ r = readme w /\ t = template w /\ out = [] /\
    err = source_warnings w).
Proof.
  assert (acts generate_alphabetical_section w (fun res r t out err =>
            (exists text, res = Ok text) /\ r = readme w /\ t = template w /\
            out = [] /\ err = source_warnings w)) as Hacts.
  { unfold generate_alphabetical_section. apply acts_get.
    { intros x y Hx. by rewrite (get_all_source_files_files w x Hx). }
    cbv zeta. apply acts_bind.
    eapply acts_mono; [apply acts_section_loop; [done|done]|].
    intros res r t out err (-> & -> & -> & -> & output' & current' & -> & _).
    eapply acts_base; [apply same_files_printed|].
    apply acts_ret. split; [by eexists|]. do 3 (split; [done|]).
    unfold source_warnings. by rewrite !app_nil_r. }
  destruct Hacts as (res & r & t & out & err & Hrun & [text ->] & Hrest).
  exists (Ok text), r, t, out, err. split; [exact Hrun|]. split; [|exact Hrest].
  unfold new_section. by rewrite (Hrun w (same_files_refl w)).
Qed.

Lemma new_section_files (w x : World) :
  same_files w x -> new_section x = new_section w.
Proof.
  intros Hx.
  destruct (acts_generate_alphabetical_section w)
    as (res & r & t & out & err & Hrun & -> & _).
  unfold new_section at 1. by rewrite (Hrun x Hx).
Qed.

Lemma new_section_lines (w : World) :
  exists output,
    new_section w = join nl output /\
    [start_marker ++ nl] `prefix_of` output /\
    (forall i f p, get_all_source_files w !! i = Some (f, p) ->
       exists before after, output = before ++ [entry_line (S i) f] ++ after) /\
    (forall c rest p, (c :: rest, p) ∈ get_all_source_files w ->
       heading_line (upper [c]) ∈ output).
Proof.
  unfold new_section, generate_alphabetical_section, bind, get. cbv zeta.
  match goal with
  | |- context [section_loop ?files (?out, ?cur, ?n) w] =>
      destruct (acts_run _ _ _ (acts_section_loop w files out cur n
                                  ltac:(done) ltac:(done)))
        as (res & r & t & o & e & Hloop & _ & _ & _ & _
            & output' & current' & -> & Hpre & Hlines & Hheads)
  end.
  match goal with
  | |- context [section_loop ?files ?st w] =>
      replace (section_loop files st w) with
        (Ok (output', current', (1 + length (get_all_source_files w))%nat),
         touch r t o e w) by (symmetry; exact Hloop)
  end.
  cbn [ret fst]. exists output'. split; [done|]. split; [|split].
  - etrans; [|exact Hpre].
    change start_marker
      with (u "## 📋 **Complete Examples - Alphabetical Reference**").
    by eexists.
  - exact Hlines.
  - exact Hheads.
Qed.

(** *** [update_readme] *)

Lemma acts_exactly {A} (m : M World A) (w : World) (res : result A)
    (r t : option file) (out err : list str) :
  acts m w (exactly res r t out err) -> m w = (res, touch r t out err w).
Proof.
  intros (res' & r' & t' & out' & err' & Hm & -> & -> & -> & -> & ->).
  apply Hm, same_files_refl.
Qed.

Lemma acts_read_readme (w : World)
    (Q : result str -> option file -> option file -> list str -> list str -> Prop) :
  Q (read_text readme_str (readme w)) (readme w) (template w) [] [] ->
  acts read_readme w Q.
Proof.
  intros HQ. eexists _, _, _, _, _. split; [|exact HQ].
  intros x Hx. unfold read_readme. rewrite touch_same by done.
  destruct Hx as (_ & -> & _). done.
Qed.

Lemma acts_write_readme (text : str) (w : World)
    (Q : result unit -> option file -> option file -> list str -> list str -> Prop) :
  Q (write_text linesep text (readme w)).1 (write_text linesep text (readme w)).2
    (template w) [] [] ->
  acts (write_readme text) w Q.
Proof.
  intros HQ. eexists _, _, _, _, _. split; [|exact HQ].
  intros x (_ & Hr & Ht & _). unfold write_readme, touch. rewrite Hr, Ht.
  destruct (write_text linesep text (readme w)). cbn. by rewrite !app_nil_r.
Qed.


Lemma read_text_readme (w : World) (c : str) :
  read_text readme_str (readme w) = Ok c <-> readme_text w = Some c.
Proof.
  unfold read_text, readme_text, file_text.
  destruct (readme w) as [[raw|raw msg after|msg]|]; split; congruence.
Qed.

Lemma read_text_Exception (name : str) (f : option file) (e : exn) :
  read_text name f = Raise e -> is_Exception e = true.
Proof. destruct f as [[]|]; intros [= <-]; done. Qed.





Lemma has_markers_first (c : str) :
  has_markers c <->
  exists s e, first_occurrence c start_marker s /\ first_occurrence c end_marker e.
Proof.
  split.
  - intros [(s & _ & Hs)%find_present (e & _ & He)%find_present]. by exists s, e.
  - intros (s & e & [Hs _] & [He _]). split; [by exists s|by exists e].
Qed.



(** The README is read and has its markers: the section is generated and
    the new text is handed to [write]. *)
Lemma acts_update_readme_found (w : World) (c : str) (s e : nat) :
  readme_text w = Some c ->
  first_occurrence c start_marker s -> first_occurrence c end_marker e ->
  acts update_readme w (fun res r t out err =>
    t = template w /\
    match write_text linesep (take s c ++ new_section w ++ separator ++ drop e c)
                     (readme w) with
    | (Ok _, f) =>
        res = Ok true /\ r = f /\ out = [u "✅ Updated " ++ readme_str] /\
        err = source_warnings w
    | (Raise e', f) =>
        res = Ok false /\ r = f /\ out = [] /\
        err = source_warnings w ++ [update_error e']
    end).
Proof.
  intros Hread%read_text_readme Hs He. unfold update_readme.
  apply acts_try_except, acts_bind, acts_read_readme. rewrite Hread.
  eapply acts_base; [apply same_files_printed|]. cbv zeta.
  rewrite (find_first _ _ _ Hs), (find_first _ _ _ He).
  replace ((Z.of_nat s =? -1) || (Z.of_nat e =? -1)) with false
    by (symmetry; apply orb_false_iff; split; apply Z.eqb_neq; lia).
  rewrite slice_to_nat, slice_from_nat.
  apply acts_bind.
  eapply acts_mono; [apply acts_generate_alphabetical_section|].
  intros res r t out err (-> & -> & -> & -> & ->).
  eapply acts_base; [apply same_files_printed|].
  apply acts_bind, acts_write_readme.
  fold separator.
  destruct (write_text linesep
              (take s c ++ new_section w ++ separator ++ drop e c) (readme w))
    as [[[]|e'] f] eqn:Hwrite; cbn [fst snd].
  - apply acts_then_print, acts_ret. cbn [app readme template touch].
    rewrite !app_nil_r. by repeat split.
  - assert (is_Exception e' = true) as ->.
    { unfold write_text in Hwrite. destruct (readme w) as [[]|]; by inversion Hwrite. }
    apply acts_then_eprint, acts_ret. cbn [app readme template touch].
    rewrite !app_nil_r. by repeat split.
Qed.




Lemma update_readme_found (w : World) (raw : str) (s e : nat) :
  readme w = Some (Text raw) ->
  first_occurrence (universal_newlines raw) start_marker s ->
  first_occurrence (universal_newlines raw) end_marker e ->
  update_readme w
  = (Ok true,
     touch (Some (Text (write_newlines linesep
                          (take s (universal_newlines raw) ++ new_section w
                           ++ separator ++ drop e (universal_newlines raw)))))
           (template w) [u "✅ Updated " ++ readme_str] (source_warnings w) w).
Proof.
  intros Hr Hs He. apply acts_exactly.
  eapply acts_mono;
    [apply (acts_update_readme_found w (universal_newlines raw) s e); [|done|done]|].
  - unfold readme_text. by rewrite Hr.
  - intros res r t out err [-> Hw]. rewrite Hr in Hw. cbn in Hw.
    destruct Hw as (-> & -> & -> & ->). done.
Qed.



Lemma first_occurrence_find (c m : str) (k : nat) :
  find c m = Z.of_nat k -> first_occurrence c m k.
Proof.
  intros Hf. destruct (find_spec c m) as [[Hno _]|(k' & Hf' & Hk')]; [lia|].
  replace k with k' by lia. exact Hk'.
Qed.

Lemma first_occurrence_le_length (c m : str) (k : nat) :
  first_occurrence c m k -> (k <= length c)%nat.
Proof. intros [Hk%occurs_at_length _]. lia. Qed.

Lemma take_split (c : str) (i j : nat) :
  (i <= j)%nat -> take j c = take i c ++ drop i (take j c).
Proof.
  intros Hij. rewrite <- (take_drop i (take j c)) at 1.
  by rewrite take_take, Nat.min_l.
Qed.

Lemma drop_split (c : str) (i j : nat) :
  (i <= j)%nat -> (j <= length c)%nat ->
  drop i c = drop i (take j c) ++ drop j c.
Proof.
  intros Hij Hj. rewrite <- (take_drop j c) at 1.
  rewrite drop_app_le; [done|]. rewrite length_take. lia.
Qed.

Lemma span_replaced_written (c new : str) (s e : nat) :
  (s <= length c)%nat -> (e <= length c)%nat ->
  span_replaced c (take s c ++ new ++ drop e c) s e.
Proof.
  intros Hs He. destruct (decide (s <= e)%nat) as [Hse|Hes].
  - exists (take s c), (drop s (take e c)), new, (drop e c).
    rewrite Nat.min_l, Nat.max_r by done. split; [|split; [done|split]].
    + rewrite app_assoc, <- take_split by done. by rewrite take_drop.
    + rewrite length_take. lia.
    + rewrite <- take_split by done. rewrite length_take. lia.
  - exists (take e c), (drop e (take s c)),
      (drop e (take s c) ++ new ++ drop e (take s c)), (drop s c).
    rewrite Nat.min_r, Nat.max_l by lia. split; [|split; [|split]].
    + rewrite app_assoc, <- take_split by lia. by rewrite take_drop.
    + rewrite (take_split c e s) at 1 by lia.
      rewrite (drop_split c e s) at 1 by lia. by rewrite <- !app_assoc.
    + rewrite length_take. lia.
    + rewrite <- take_split by lia. rewrite length_take. lia.
Qed.

Lemma warned_touch (w : World) (lines : list str) :
  warned w lines (touch (readme w) (template w) [] lines w).
Proof. split; [by repeat split|]. split; [apply app_nil_r|done]. Qed.

Lemma reported_touch (w : World) (message : str) :
  reported w message (touch (readme w) (template w) [] [message] w).
Proof. split; [by repeat split|]. split; [apply app_nil_r|done]. Qed.

Lemma linesep_lf : crlf_linesep = false -> linesep = [10%N].
Proof. unfold linesep. by intros ->. Qed.

End Facts.
End UpdateFacts.

Module UpdateSpec.
Import Py PyFacts FindFacts UpdateDocumentation TextFacts UpdateFacts.
#[local] Opaque u repeat_str.

Section Claims.
Context `{Host}.

(** C2, as the code has it.  The README is opened in text mode.  When
    the text read from it, with every line end read as a newline, holds
    both markers, [update_readme] succeeds and writes, with every newline
    written as [os.linesep], the text in front of the first start marker,
    the generated section with its separator, and the text from the first
    end marker on; the other files are not touched.  So the text in front
    of the first start marker and the text from the first end marker on
    are those of the text read, and only the span between the two
    positions is replaced.  When the README holds no carriage return and
    [os.linesep] is the newline, what is written is this text itself and
    the two parts are the same character for character. *)
Theorem update_readme_replaces_span (w : World) (raw : str) (s e : nat) :
  readme w = Some (Text raw) ->
  first_occurrence (universal_newlines raw) start_marker s ->
  first_occurrence (universal_newlines raw) end_marker e ->
  (update_readme w).1 = Ok true /\
  src_dir (update_readme w).2 = src_dir w /\
  template (update_readme w).2 = template w /\
  exists c',
    readme (update_readme w).2 = Some (Text (write_newlines linesep c')) /\
    c' = take s (universal_newlines raw) ++ (new_section w ++ separator)
         ++ drop e (universal_newlines raw) /\
    take s (universal_newlines raw) `prefix_of` c' /\
    drop e (universal_newlines raw) `suffix_of` c' /\
    span_replaced (universal_newlines raw) c' s e /\
    (13%N ∉ raw -> crlf_linesep = false ->
     readme (update_readme w).2
     = Some (Text (take s raw ++ (new_section w ++ separator) ++ drop e raw))).
Proof.
  intros Hr Hs He. rewrite (update_readme_found w raw s e Hr Hs He).
  cbn [fst snd src_dir template readme touch].
  do 3 (split; [done|]).
  exists (take s (universal_newlines raw) ++ (new_section w ++ separator)
          ++ drop e (universal_newlines raw)).
  split; [by rewrite <- !app_assoc|]. split; [done|].
  split; [by eexists|]. split; [|split].
  - exists (take s (universal_newlines raw) ++ new_section w ++ separator).
    by rewrite <- !app_assoc.
  - apply span_replaced_written; by eapply first_occurrence_le_length.
  - intros Hcr Hlf. rewrite (linesep_lf Hlf), write_newlines_lf.
    rewrite (universal_newlines_id raw Hcr). by rewrite <- !app_assoc.
Qed.



End Claims.

Lemma update_readme_replaces_span_sample :
  (@update_readme ascii_host sample_world).1 = Ok true /\
  exists c', readme (@update_readme ascii_host sample_world).2
             = Some (Text (write_newlines (@linesep ascii_host) c')) /\
             span_replaced (universal_newlines sample_readme) c' 11 78.
Proof.
  destruct (@update_readme_replaces_span ascii_host sample_world sample_readme 11 78)
    as (Hok & _ & _ & c' & Hc' & _ & _ & _ & Hspan & _).
  - reflexivity.
  - apply first_occurrence_find. vm_compute. reflexivity.
  - apply first_occurrence_find. vm_compute. reflexivity.
  - split; [exact Hok|]. exists c'. split; [exact Hc'|exact Hspan].
Defined.



(** The README of [crlf_world] holds both markers and ends its lines
    with a carriage return and a newline.  [update_readme] succeeds on it,
    and what it writes on a host whose [os.linesep] is the newline does
    not begin with what the README held in front of its first start
    marker, nor end with what it held from its first end marker on: the
    carriage returns are gone. *)
Lemma update_readme_crlf_not_identical :
  readme crlf_world = Some (Text crlf_readme) /\
  has_markers crlf_readme /\
  first_occurrence crlf_readme start_marker 12 /\
  first_occurrence crlf_readme end_marker 81 /\
  (@update_readme ascii_host crlf_world).1 = Ok true /\
  exists raw',
    readme (@update_readme ascii_host crlf_world).2 = Some (Text raw') /\
    ~ take 12 crlf_readme `prefix_of` raw' /\
    ~ drop 81 crlf_readme `suffix_of` raw'.
Proof.
  assert (first_occurrence crlf_readme start_marker 12) as Hs.
  { apply first_occurrence_find. vm_compute. reflexivity. }
  assert (first_occurrence crlf_readme end_marker 81) as He.
  { apply first_occurrence_find. vm_compute. reflexivity. }
  split; [reflexivity|]. split; [apply has_markers_first; by exists 12%nat, 81%nat|].
  split; [exact Hs|]. split; [exact He|]. split; [by vm_compute|].
  eexists. split; [vm_compute; reflexivity|]. split.
  - intros [rest Heq]. apply (f_equal (take 12)) in Heq.
    vm_compute in Heq. discriminate Heq.
  - intros [front Heq]. apply (f_equal (@rev _)) in Heq.
    rewrite rev_app_distr in Heq. apply (f_equal (take 2)) in Heq.
    vm_compute in Heq. discriminate Heq.
Qed.

End UpdateSpec.

(** ** The link pattern and [check_new_files] *)

Module LinkFacts.
Import Py PyFacts FindFacts UpdateDocumentation TextFacts UpdateFacts.
#[local] Opaque u.

(** *** The order of strings *)

Lemma str_leb_refl (a : str) : str_leb a a = true.
Proof.
  induction a as [|x a IH]; [done|]. simpl.
  by rewrite N.ltb_irrefl.
Qed.

Lemma str_leb_total (a b : str) : str_leb a b = true \/ str_leb b a = true.
Proof.
  revert b. induction a as [|x a IH]; intros [|y b]; simpl; auto.
  destruct (N.ltb_spec x y), (N.ltb_spec y x); auto.
Qed.

Lemma str_leb_antisym (a b : str) :
  str_leb a b = true -> str_leb b a = true -> a = b.
Proof.
  revert b. induction a as [|x a IH]; intros [|y b]; simpl; try done.
  destruct (N.ltb_spec x y), (N.ltb_spec y x); try done; try lia.
  intros Hab Hba. f_equal; [lia|auto].
Qed.

Lemma str_leb_trans (a b c : str) :
  str_leb a b = true -> str_leb b c = true -> str_leb a c = true.
Proof.
  revert b c. induction a as [|x a IH]; intros [|y b] [|z c]; simpl; try done.
  destruct (N.ltb_spec x y), (N.ltb_spec y x), (N.ltb_spec y z),
    (N.ltb_spec z y), (N.ltb_spec x z), (N.ltb_spec z x);
    try done; try lia.
  apply IH.
Qed.

Lemma sorted_strings (l : list str) :
  NoDup l ->
  StronglySorted str_lt (sorted str_leb l) /\ sorted str_leb l ≡ₚ l.
Proof.
  intros Hnd. split; [|apply sorted_by_perm].
  assert (NoDup (sorted str_leb l)) as Hnd'.
  { by rewrite (sorted_by_perm (fun x : str => x) str_leb l). }
  assert (StronglySorted str_le (sorted str_leb l)) as Hs.
  { apply Sorted_StronglySorted.
    - intros a b c. apply str_leb_trans.
    - apply (sorted_by_sorted (fun x : str => x) str_leb), str_leb_total. }
  induction Hs as [|x l' Hl' IH Hx]; [constructor|].
  apply NoDup_cons in Hnd' as [Hx' Hnd']. constructor; [by apply IH|].
  rewrite Forall_forall in *. intros y Hy. split; [by apply Hx|].
  intros ->. done.
Qed.

(** *** The pattern *)

Section Pattern.
Context `{Host}.

Lemma span_word_spec (s : str) :
  s = (span_word s).1 ++ (span_word s).2 /\
  Forall (fun c => is_word c = true) (span_word s).1 /\
  match (span_word s).2 with [] => True | c :: _ => is_word c = false end.
Proof.
  induction s as [|c s IH]; simpl; [by repeat split|].
  destruct (is_word c) eqn:Hc; simpl.
  - destruct (span_word s) as [w r]. simpl in *. destruct IH as (-> & Hw & Hr).
    split; [done|]. split; [by constructor|done].
  - by repeat split.
Qed.

Lemma span_word_stem (stem r : str) (c : char) :
  Forall (fun c => is_word c = true) stem -> is_word c = false ->
  span_word (stem ++ c :: r) = (stem, c :: r).
Proof.
  intros Hstem Hc. induction Hstem as [|x stem Hx Hstem IH]; simpl.
  - by rewrite Hc.
  - by rewrite Hx, IH.
Qed.

Lemma not_word_dot : is_word 46%N = false.
Proof. reflexivity. Qed.

Lemma not_word_bracket : is_word 91%N = false.
Proof. reflexivity. Qed.

Lemma match_link_Some (s g : str) (len : nat) :
  match_link s = Some (g, len) ->
  linkable g /\ len = (length g + 2)%nat /\
  exists rest, s = [91%N] ++ g ++ [93%N] ++ rest.
Proof.
  unfold match_link. destruct (startswith s (u "[")) eqn:Hb; [|done].
  apply startswith_prefix in Hb as [s1 ->].
  change (u "[") with [91%N]. cbn [app drop]. rewrite drop_0.
  pose proof (span_word_spec s1) as (Hs1 & Hw & _).
  destruct (span_word s1) as [w r]. cbn [fst snd] in Hs1, Hw.
  destruct w as [|c w]; [done|].
  destruct (startswith r (u ".cpp]")) eqn:H1.
  - intros [= <- <-]. apply startswith_prefix in H1 as [rest ->].
    split; [|split].
    + exists (c :: w). split; [done|]. split; [done|by left].
    + cbn [length app]. rewrite !length_app. change (length (u ".cpp")) with 4%nat. lia.
    + exists rest. rewrite Hs1. change (u ".cpp]") with (u ".cpp" ++ [93%N]).
      cbn [app]. rewrite <- !app_assoc. cbn [app]. done.
  - destruct (startswith r (u ".cppm]")) eqn:H2; [|done].
    intros [= <- <-]. apply startswith_prefix in H2 as [rest ->].
    split; [|split].
    + exists (c :: w). split; [done|]. split; [done|by right].
    + cbn [length app]. rewrite !length_app. change (length (u ".cppm")) with 5%nat. lia.
    + exists rest. rewrite Hs1. change (u ".cppm]") with (u ".cppm" ++ [93%N]).
      cbn [app]. rewrite <- !app_assoc. cbn [app]. done.
Qed.

Lemma linkable_no_bracket (f : str) : linkable f -> 91%N ∉ f.
Proof.
  intros (stem & _ & Hstem & Hf) Hin.
  assert (91%N ∉ stem) as Hs.
  { intros Hs. rewrite Forall_forall in Hstem. apply Hstem in Hs.
    by rewrite not_word_bracket in Hs. }
  assert (91%N ∉ u ".cpp") as H1 by (apply (bool_decide_unpack _); by vm_compute).
  assert (91%N ∉ u ".cppm") as H2 by (apply (bool_decide_unpack _); by vm_compute).
  destruct Hf as [-> | ->]; apply elem_of_app in Hin as [?|Hin]; done.
Qed.

Lemma match_link_linkable (f rest : str) :
  linkable f ->
  match_link ([91%N] ++ f ++ [93%N] ++ rest) = Some (f, (length f + 2)%nat).
Proof.
  intros (stem & Hne & Hstem & Hf). unfold match_link.
  change (startswith ([91%N] ++ f ++ [93%N] ++ rest) (u "[")) with true.
  cbn [app drop]. rewrite drop_0.
  destruct Hf as [-> | ->].
  - change (u ".cpp") with (46%N :: u "cpp"). rewrite <- !app_assoc. cbn [app].
    rewrite (span_word_stem stem _ 46%N Hstem not_word_dot).
    destruct stem as [|c stem]; [done|].
    change (startswith (46%N :: u "cpp" ++ 93%N :: rest) (u ".cpp]")) with true.
    cbn [length app]. rewrite !length_app. cbn [length]. 
    change (length (u "cpp")) with 3%nat. do 2 f_equal. lia.
  - change (u ".cppm") with (46%N :: u "cppm"). rewrite <- !app_assoc. cbn [app].
    rewrite (span_word_stem stem _ 46%N Hstem not_word_dot).
    destruct stem as [|c stem]; [done|].
    change (startswith (46%N :: u "cppm" ++ 93%N :: rest) (u ".cpp]")) with false.
    change (startswith (46%N :: u "cppm" ++ 93%N :: rest) (u ".cppm]")) with true.
    change (u ".cppm") with (46%N :: u "cppm").
    cbn [length app]. rewrite !length_app. cbn [length].
    change (length (u "cppm")) with 4%nat. do 2 f_equal. lia.
Qed.

(** *** [findall] *)

Lemma findall_links_sound (skip : nat) (s g : str) :
  g ∈ findall_links_go skip s -> linkable g /\ bracketed s g.
Proof.
  revert skip. induction s as [|x s IH]; intros skip; cbn [findall_links_go].
  - by intros ?%elem_of_nil.
  - assert (forall k, g ∈ findall_links_go k s -> linkable g /\ bracketed (x :: s) g)
      as IH'.
    { intros k [Hl [n Hn]]%IH. split; [done|]. exists (S n). by apply occurs_at_S. }
    destruct skip as [|k]; [|apply IH'].
    destruct (match_link (x :: s)) as [[g' len]|] eqn:Hm; [|apply IH'].
    intros [->|Hin]%elem_of_cons; [|by apply (IH' _ Hin)].
    apply match_link_Some in Hm as (Hl & _ & rest & Hrest). split; [done|].
    exists 0%nat, [], rest. split; [|done]. rewrite Hrest. by rewrite <- !app_assoc.
Qed.

Lemma findall_links_complete (skip : nat) (s pre rest f : str) :
  linkable f -> s = pre ++ [91%N] ++ f ++ [93%N] ++ rest ->
  91%N ∉ take skip s ->
  f ∈ findall_links_go skip s.
Proof.
  intros Hf. revert skip pre. induction s as [|x s IH]; intros skip pre Hs Hskip.
  - destruct pre; discriminate.
  - cbn [findall_links_go]. destruct skip as [|k].
    + destruct pre as [|y pre].
      * pose proof (match_link_linkable f rest Hf) as Hm.
        cbn [app] in Hs, Hm. rewrite Hs, Hm. by left.
      * injection Hs as -> Hs.
        destruct (match_link (y :: s)) as [[g len]|] eqn:Hm.
        -- right. apply (IH _ pre Hs).
           apply match_link_Some in Hm as (Hg & -> & rest' & Hrest).
           injection Hrest as -> Hrest. rewrite Hrest.
           replace (length g + 2 - 1)%nat with (length (g ++ [93%N]))
             by (rewrite length_app; simpl; lia).
           change (g ++ 93%N :: rest') with (g ++ [93%N] ++ rest').
           rewrite app_assoc, take_app_length.
           intros [Hin|Hin]%elem_of_app; [by apply linkable_no_bracket in Hin|].
           apply list_elem_of_singleton in Hin. done.
        -- apply (IH _ pre Hs). simpl. by intros ?%elem_of_nil.
    + destruct pre as [|y pre].
      * injection Hs as -> _. destruct Hskip. simpl. by left.
      * injection Hs as -> Hs. apply (IH _ pre Hs).
        intros Hin. apply Hskip. simpl. by right.
Qed.

Lemma findall_links_spec (c f : str) :
  f ∈ findall_links c <-> linkable f /\ bracketed c f.
Proof.
  split; [apply findall_links_sound|].
  intros [Hf (k & pre & rest & -> & _)].
  apply (findall_links_complete 0 _ pre rest f Hf).
  - by rewrite <- !app_assoc.
  - simpl. by intros ?%elem_of_nil.
Qed.

(** *** [check_new_files] *)

Lemma source_name_listed (w : World) (f : str) :
  f ∈ List.map fst (get_all_source_files w) <-> source_name w f.
Proof.
  rewrite list_elem_of_fmap. split.
  - intros ([f' p] & -> & Hin). by apply get_all_source_files_elem_of in Hin as [_ ?].
  - intros Hf. exists (f, f). split; [done|]. by apply get_all_source_files_elem_of.
Qed.

Lemma acts_check_new_files (w : World) :
  acts check_new_files w (fun res r t out err =>
    r = readme w /\ t = template w /\ out = [] /\
    match read_text readme_str (readme w) with
    | Ok c =>
        err = [] /\
        exists l, res = Ok l /\ StronglySorted str_lt l /\
                  forall f, f ∈ l <-> source_name w f /\ ~ (linkable f /\ bracketed c f)
    | Raise e =>
        res = Ok [] /\
        err = [u "Warning: Could not check for new files: " ++ str_of_exn unicode_printable e]
    end).
Proof.
  unfold check_new_files. apply acts_get.
  { intros x y Hx. by rewrite (get_all_source_files_files w x Hx). }
  cbv zeta. apply acts_try_except, acts_bind, acts_read_readme.
  destruct (read_text readme_str (readme w)) as [c|e] eqn:Hread.
  - eapply acts_base; [apply same_files_printed|].
    apply acts_ret. cbn [app]. do 4 (split; [done|]).
    eexists. split; [reflexivity|].
    match goal with |- context [elements ?X] => set (new_files := X) end.
    destruct (sorted_strings (elements new_files)) as [Hsorted Hperm].
    { apply NoDup_elements. }
    split; [exact Hsorted|]. intros f.
    rewrite Hperm, elem_of_elements. unfold new_files.
    rewrite elem_of_difference, !elem_of_list_to_set.
    by rewrite source_name_listed, findall_links_spec.
  - rewrite (read_text_Exception _ _ _ Hread).
    eapply acts_base; [apply same_files_printed|].
    apply acts_then_eprint, acts_ret. by repeat split.
Qed.

Lemma check_new_files_spec (w : World) (c : str) :
  readme_text w = Some c ->
  exists l, check_new_files w = (Ok l, w) /\
            StronglySorted str_lt l /\
            forall f, f ∈ l <-> source_name w f /\ ~ (linkable f /\ bracketed c f).
Proof.
  intros Hr%read_text_readme.
  destruct (acts_run _ _ _ (acts_check_new_files w))
    as (res & r & t & out & err & Hrun & -> & -> & -> & Hres).
  rewrite Hr in Hres. destruct Hres as (-> & l & -> & Hsorted & Hl).
  exists l. split; [|done]. rewrite Hrun. f_equal. apply touch_same, same_files_refl.
Qed.

Lemma check_new_files_linkable (w : World) (c : str) :
  readme_text w = Some c ->
  (forall f, source_name w f -> linkable f) ->
  exists l, check_new_files w = (Ok l, w) /\
            StronglySorted str_lt l /\
            forall f, f ∈ l <-> source_name w f /\ ~ bracketed c f.
Proof.
  intros Hr Hall. destruct (check_new_files_spec w c Hr) as (l & Heq & Hs & Hl).
  exists l. do 2 (split; [done|]). intros f. rewrite Hl.
  split; intros [Hf Hn]; (split; [done|]).
  - intros Hb. apply Hn. split; [by apply Hall|done].
  - by intros [_ Hb].
Qed.

Lemma check_new_files_unread (w : World) (e : exn) :
  read_text readme_str (readme w) = Raise e ->
  check_new_files w
  = (Ok [], touch (readme w) (template w) []
                  [u "Warning: Could not check for new files: " ++ str_of_exn unicode_printable e] w).
Proof.
  intros Hr.
  destruct (acts_run _ _ _ (acts_check_new_files w))
    as (res & r & t & out & err & Hrun & -> & -> & -> & Hres).
  rewrite Hr in Hres. destruct Hres as (-> & ->). exact Hrun.
Qed.

Lemma check_new_files_files (w x : World) :
  same_files w x -> (check_new_files x).1 = (check_new_files w).1.
Proof.
  intros Hx. destruct (acts_check_new_files w) as (res & r & t & out & err & Hrun & _).
  by rewrite (Hrun x Hx), (Hrun w (same_files_refl w)).
Qed.

Lemma check_new_files_sources (w : World) (l : list str) :
  (check_new_files w).1 = Ok l -> forall f, f ∈ l -> source_name w f.
Proof.
  destruct (acts_run _ _ _ (acts_check_new_files w))
    as (res & r & t & out & err & Hrun & _ & _ & _ & Hres).
  rewrite Hrun. cbn [fst]. intros ->.
  destruct (read_text readme_str (readme w)) as [c|e].
  - destruct Hres as (_ & l' & Heq & _ & Hl). injection Heq as ->.
    intros f Hf. by apply Hl in Hf as [? _].
  - destruct Hres as [Heq _]. injection Heq as ->. by intros f ?%elem_of_nil.
Qed.

End Pattern.
End LinkFacts.

(** ** The index template and [main] of the documentation updater *)

Module MainFacts.
Import Py PyFacts FindFacts UpdateDocumentation TextFacts UpdateFacts LinkFacts.
#[local] Opaque u repeat_str.
Local Open Scope py_scope.

Section Main.
Context `{Host}.



Lemma read_warnings_src (w x : World) (paths : list Path) :
  src_dir x = src_dir w -> read_warnings x paths = read_warnings w paths.
Proof.
  intros Hs. unfold read_warnings, source_file. by rewrite Hs.
Qed.

(** *** The index template *)

Lemma join_cons (sep p : str) (ps : list str) :
  join sep (p :: ps) = p ++ match ps with [] => [] | _ :: _ => sep ++ join sep ps end.
Proof. destruct ps; simpl; [by rewrite app_nil_r|done]. Qed.

Lemma join_prefix (sep p : str) (parts out : list str) :
  p :: parts `prefix_of` out -> p `prefix_of` join sep out.
Proof. intros [rest ->]. cbn [app]. rewrite join_cons. by eexists. Qed.

Lemma acts_template_entry (output : list str) (f : str) (w : World) :
  acts (template_entry output f) w (fun res r t out err =>
    r = readme w /\ t = template w /\ out = [] /\ err = read_warnings w [f] /\
    exists before after,
      res = Ok (output ++ before ++ [template_file_line f] ++ after)).
Proof.
  unfold template_entry. apply acts_bind.
  eapply acts_mono; [apply acts_extract_file_description|].
  intros res r t out err (-> & -> & -> & -> & d & k & -> & _).
  eapply acts_base; [apply same_files_printed|].
  apply acts_ret. cbn [app]. rewrite app_nil_r. do 4 (split; [done|]).
  unfold template_file_line. destruct k as [|item k].
  - eexists [_], _. cbn [app]. reflexivity.
  - eexists [_], _. rewrite <- app_assoc. cbn [app]. reflexivity.
Qed.

Lemma acts_template_loop (new_files : list str) (output : list str) (w : World) :
  acts (template_loop new_files output) w (fun res r t out err =>
    r = readme w /\ t = template w /\ out = [] /\
    err = read_warnings w new_files /\
    exists output',
      res = Ok output' /\ output `prefix_of` output' /\
      forall f, f ∈ new_files ->
        exists before after, output' = before ++ [template_file_line f] ++ after).
Proof.
  revert output. induction new_files as [|f new_files IH]; intros output.
  - apply acts_ret. do 4 (split; [done|]). exists output.
    split; [done|]. split; [done|]. by intros f ?%elem_of_nil.
  - cbn [template_loop]. apply acts_bind.
    eapply acts_mono; [apply acts_template_entry|].
    intros res r t out err (-> & -> & -> & -> & before & after & ->).
    eapply acts_base; [apply same_files_printed|].
    eapply acts_mono; [apply IH|].
    intros res r t out err (-> & -> & -> & -> & output' & -> & Hpre & Hlines).
    do 3 (split; [done|]).
    split. { unfold read_warnings. cbn [flat_map]. by rewrite app_nil_r. }
    exists output'. split; [done|]. split.
    + etrans; [|exact Hpre]. by eexists.
    + intros g [->|Hg]%elem_of_cons; [|by apply Hlines].
      destruct Hpre as [more ->]. exists (output ++ before), (after ++ more).
      by rewrite <- !app_assoc.
Qed.

Lemma acts_generate_index_template (new_files : list str) (w : World) :
  acts (generate_index_template new_files) w (fun res r t out err =>
    r = readme w /\ t = template w /\ out = [] /\
    err = read_warnings w new_files /\
    exists text,
      res = Ok text /\ (text = [] <-> new_files = []) /\
      forall f, f ∈ new_files -> has_line text (template_file_line f)).
Proof.
  unfold generate_index_template. destruct new_files as [|f new_files].
  - apply acts_ret. do 4 (split; [done|]). exists [].
    split; [done|]. split; [done|]. by intros f ?%elem_of_nil.
  - apply acts_bind. eapply acts_mono; [apply acts_template_loop|].
    intros res r t out err (-> & -> & -> & -> & output & -> & Hpre & Hlines).
    eapply acts_base; [apply same_files_printed|].
    apply acts_ret. rewrite !app_nil_r. do 4 (split; [done|]).
    eexists. split; [reflexivity|]. split.
    + split; [|done]. intros Hempty. exfalso.
      match type of Hempty with
      | join nl ?out = [] =>
          assert (nl ++ rule `prefix_of` join nl out) as [rest Hrest]
      end.
      { apply (join_prefix nl _ []). destruct Hpre as [more ->].
        rewrite <- app_assoc. cbn [app]. by eexists. }
      rewrite Hrest in Hempty. unfold nl in Hempty. cbn [app] in Hempty.
      discriminate.
    + intros g Hg. destruct (Hlines g Hg) as (before & after & ->).
      exists before, (after ++ [nl ++ rule; u "Copy relevant sections above into INDEX.md";
                                rule ++ nl]).
      by rewrite <- !app_assoc.
Qed.

(** *** [main] *)









End Main.
End MainFacts.

Module MainSpec.
Import Py PyFacts FindFacts UpdateDocumentation TextFacts UpdateFacts LinkFacts MainFacts.
#[local] Opaque u repeat_str.



(** C7 at a file name that holds a hyphen.  The project has the one
    source [my-file.cpp].  After [update_readme] has written the README,
    the README lists the file as [**[my-file.cpp](src/my-file.cpp)**]:
    every source name is referenced there as a bracketed link, so the set
    difference of the claim is empty.  [check_new_files] returns the file
    as new all the same. *)
Theorem check_new_files_reports_listed_file :
  let w := (@update_readme ascii_host hyphen_world).2 in
  (@update_readme ascii_host hyphen_world).1 = Ok true /\
  (exists c, readme_text w = Some c /\
             occurs c (u "**[my-file.cpp](src/my-file.cpp)**") /\
             forall f, source_name w f -> bracketed c f) /\
  (@check_new_files ascii_host w).1 = Ok [u "my-file.cpp"].
Proof.
  cbv zeta. split; [by vm_compute|]. split; [|by vm_compute].
  destruct (readme_text (@update_readme ascii_host hyphen_world).2) as [c|] eqn:Hc;
    [|by vm_compute in Hc].
  exists c. split; [done|].
  vm_compute in Hc. injection Hc as <-. split.
  - apply find_occurs. by vm_compute.
  - intros f [Hf|Hf]; vm_compute in Hf.
    + apply list_elem_of_singleton in Hf as ->. apply find_occurs. by vm_compute.
    + by apply elem_of_nil in Hf.
Qed.

End MainSpec.

(** ** The smoke test *)

Module TestPybindSpec.
Import Py TestPybind.

Lemma call_returns (env : Env) (n : nat) :
  calls_return env -> call env n = ret tt.
Proof. intros Hc. unfold call. by rewrite Hc. Qed.

Lemma print_foreign_returns (env : Env) (n : nat) :
  calls_return env ->
  print_foreign env n = modify (fun out => out ++ [Foreign n]).
Proof. intros Hc. unfold print_foreign. by rewrite call_returns. Qed.

Lemma status_import_fails (env : Env) (e : exn) :
  import_pybind_example env = Some e -> is_Exception e = true -> status env = 1.
Proof.
  intros He Hexc. unfold status, run, main, try_except, bind, import_.
  rewrite He. unfold raise. destruct e; try done; reflexivity.
Qed.

Lemma status_all_return (env : Env) :
  import_pybind_example env = None -> calls_return env -> numpy_optional env ->
  status env = 0.
Proof.
  intros Hpe Hc Hnp.
  unfold status, run, main, simple_functions, stl_containers, classes,
    inheritance, callbacks, sensor_data, numpy_arrays, smart_pointers.
  rewrite Hpe. cbn [for_each seq].
  rewrite ?(print_foreign_returns env _ Hc), ?(call_returns env _ Hc).
  destruct Hnp as [->|[msg ->]].
  - destruct (truth env 200); reflexivity.
  - reflexivity.
Qed.

(** C6, as the script has it.  The exit status is 1 when the import of
    [pybind_example] fails.  It is 0 when that import succeeds and every
    statement that calls into the module (or into [numpy]) returns,
    whether [numpy] can be imported or not. *)
Theorem smoke_test_status (env : Env) :
  (forall e, import_pybind_example env = Some e -> is_Exception e = true ->
             status env = 1) /\
  (import_pybind_example env = None -> calls_return env -> numpy_optional env ->
   status env = 0).
Proof.
  split.
  - intros e. apply status_import_fails.
  - apply status_all_return.
Qed.

Lemma smoke_test_status_samples : status no_module = 1 /\ status no_numpy = 0.
Proof.
  split.
  - apply (proj1 (smoke_test_status no_module))
      with (e := ImportError (u "No module named 'pybind_example'")).
    + reflexivity.
    + reflexivity.
  - apply (proj2 (smoke_test_status no_numpy)).
    + reflexivity.
    + intros n. reflexivity.
    + right. eexists. reflexivity.
Defined.

(** With [stale_module] the import succeeds and the exit status is not
    0: the exception of the first call ends the script. *)
Lemma smoke_test_import_ok_status_1 :
  import_pybind_example stale_module = None /\
  status stale_module = 1 /\ status stale_module <> 0.
Proof. split; [reflexivity|]. split; [by vm_compute|by vm_compute]. Qed.

End TestPybindSpec.

(* ===================================================================== *)
(** * Part III: further properties of the scripts                         *)
(* ===================================================================== *)

(** ** The anagram script: order and partition *)

Module AnagramExtra.
Import Py PyFacts Anagram AnagramFacts.

Lemma dict_set_fresh {K V : Type} `{EqDecision K} (d : dict K V) (k : K) (v : V) :
  k ∉ dict_keys d -> dict_set d k v = d ++ [(k, v)].
Proof.
  induction d as [|[k0 v0] d IH]; simpl; intros Hk; [done|].
  apply not_elem_of_cons in Hk as [Hne Hk].
  rewrite decide_False by done. by rewrite IH.
Qed.

Lemma fold_pairs_fresh (words : list str) (d0 : dict str str) :
  NoDup (dict_keys d0 ++ words) ->
  fold_left pairs_step words d0
  = d0 ++ List.map (fun w => (w, signature w)) words.
Proof.
  revert d0. induction words as [|x words IH]; intros d0 Hnd; cbn [fold_left List.map].
  - by rewrite app_nil_r.
  - assert (x ∉ dict_keys d0) as Hx.
    { apply NoDup_app in Hnd as (_ & Hdis & _). intros Hin.
      apply (Hdis x Hin). by left. }
    unfold pairs_step at 2. rewrite (dict_set_fresh d0 x _ Hx).
    rewrite IH.
    + by rewrite <- app_assoc.
    + unfold dict_keys. rewrite map_app. cbn [List.map fst].
      by rewrite <- app_assoc.
Qed.

Lemma build_Pairs_fresh (words : list str) :
  NoDup words ->
  build_Pairs words = List.map (fun w => (w, signature w)) words.
Proof. intros Hnd. by apply (fold_pairs_fresh words []). Qed.

Lemma group_of_pairs (words : list str) (key : str) :
  group_of (List.map (fun w => (w, signature w)) words) key
  = filter (fun w => signature w = key) words.
Proof.
  induction words as [|x words IH]; [done|].
  cbn [List.map]. rewrite group_of_cons, filter_cons, IH.
  by destruct (decide (signature x = key)).
Qed.

Lemma setdefault_append_keys {K X : Type} `{EqDecision K}
    (d : dict K (list X)) (k : K) (x : X) :
  dict_keys (setdefault_append d k x)
  = if bool_decide (k ∈ dict_keys d) then dict_keys d else dict_keys d ++ [k].
Proof.
  induction d as [|[k0 g0] d IH]; simpl; [done|].
  destruct (decide (k = k0)) as [->|Hne]; simpl.
  - rewrite bool_decide_eq_true_2; [done|by left].
  - rewrite IH. case_bool_decide as Hin.
    + rewrite bool_decide_eq_true_2; [done|by right].
    + rewrite bool_decide_eq_false_2; [done|].
      unfold dict_keys in Hin. rewrite elem_of_cons. intros [?|?]; [done|]. by apply Hin.
Qed.

Lemma setdefault_append_concat {K X : Type} `{EqDecision K}
    (d : dict K (list X)) (k : K) (x : X) :
  concat (setdefault_append d k x).*2 ≡ₚ x :: concat d.*2.
Proof.
  induction d as [|[k0 g0] d IH]; simpl; [done|].
  destruct (decide (k = k0)) as [->|Hne]; simpl.
  - rewrite <- app_assoc. simpl. symmetry. apply Permutation_middle.
  - rewrite IH. symmetry. apply Permutation_middle.
Qed.

Lemma fold_anagrams_keys (words : list str) (pairs : dict str str)
    (A0 : dict str (list str)) :
  NoDup (dict_keys A0) ->
  NoDup (dict_keys (fold_left (anagrams_step words) pairs A0)).
Proof.
  revert A0. induction pairs as [|[k v] pairs IH]; intros A0 Hnd; cbn [fold_left]; [done|].
  apply IH. unfold anagrams_step. cbn [fst snd]. case_bool_decide; [|done].
  rewrite setdefault_append_keys. case_bool_decide as Hin; [done|].
  apply NoDup_app. split; [done|]. split; [|apply NoDup_singleton].
  intros y Hy ->%list_elem_of_singleton. done.
Qed.

Lemma fold_anagrams_concat (words : list str) (pairs : list (str * str))
    (A0 : dict str (list str)) :
  concat (fold_left (anagrams_step words) pairs A0).*2
  ≡ₚ concat A0.*2 ++ (filter (fun kv : str * str => kv.2 ∈ words) pairs).*1.
Proof.
  revert A0. induction pairs as [|[k v] pairs IH]; intros A0; cbn [fold_left].
  - by rewrite app_nil_r.
  - rewrite IH, filter_cons. unfold anagrams_step. cbn [fst snd].
    destruct (decide (v ∈ words)) as [Hv|Hv].
    + rewrite bool_decide_eq_true_2 by done. rewrite setdefault_append_concat.
      cbn [fmap list_fmap fst]. simpl. apply Permutation_middle.
    + rewrite bool_decide_eq_false_2 by done. done.
Qed.

Lemma filter_pairs_words (words ws : list str) :
  (filter (fun kv : str * str => kv.2 ∈ words)
          (List.map (fun w => (w, signature w)) ws)).*1
  = filter (fun w => signature w ∈ words) ws.
Proof.
  induction ws as [|x ws IH]; [done|].
  cbn [List.map]. rewrite !filter_cons. cbn [snd].
  destruct (decide (signature x ∈ words)); [|exact IH].
  rewrite fmap_cons. cbn [fst]. by rewrite IH.
Qed.

(** X1.  The signature is a canonical form for anagrams: two words have
    the same signature exactly when one is a rearrangement of the
    other. *)
Theorem signature_iff_anagram (a b : str) :
  signature a = signature b <-> a ≡ₚ b.
Proof.
  rewrite !signature_sorted. split.
  - intros Heq. rewrite <- (sorted_chars_perm a), Heq. apply sorted_chars_perm.
  - intros Hp. apply sorted_chars_unique; [apply sorted_chars_le|].
    by rewrite sorted_chars_perm.
Qed.

(** X2.  For a word list without repeats the comprehension keeps the
    order of the list: [Pairs] holds one entry for each word, in the
    order of the list, with the word's signature as its value; its keys
    are the word list itself. *)
Theorem build_Pairs_in_order (words : list str) :
  NoDup words ->
  build_Pairs words = List.map (fun w => (w, signature w)) words /\
  dict_keys (build_Pairs words) = words.
Proof.
  intros Hnd. rewrite (build_Pairs_fresh words Hnd). split; [done|].
  unfold dict_keys. rewrite map_map. cbn [fst]. apply map_id.
Qed.

Lemma build_Pairs_in_order_mDictionary :
  Pairs = List.map (fun w => (w, signature w)) mDictionary /\
  dict_keys Pairs = mDictionary.
Proof.
  apply (build_Pairs_in_order mDictionary).
  apply (bool_decide_unpack _). vm_compute. exact I.
Defined.

(** X3.  For a word list without repeats, the group stored under a key
    is the list of the words with that signature, in the order of the
    word list and without repeats. *)
Theorem build_Anagrams_group_in_order (words : list str) (key : str) (g : list str) :
  NoDup words ->
  dict_get (build_Anagrams words (build_Pairs words)) key = Some g ->
  g = filter (fun w => signature w = key) words /\ NoDup g /\ g <> [].
Proof.
  intros Hnd. rewrite build_Anagrams_get, (build_Pairs_fresh words Hnd).
  rewrite group_of_pairs. case_bool_decide as Hk; [|done].
  intros [= <-]. split; [done|]. split; [by apply NoDup_filter|tauto].
Qed.

Lemma build_Anagrams_group_in_order_art :
  [u "art"; u "tar"; u "rat"]
  = filter (fun w => signature w = u "art") mDictionary /\
  NoDup [u "art"; u "tar"; u "rat"] /\ [u "art"; u "tar"; u "rat"] <> [].
Proof.
  apply (build_Anagrams_group_in_order mDictionary (u "art")).
  - apply (bool_decide_unpack _). vm_compute. exact I.
  - vm_compute. reflexivity.
Defined.

(** X4.  The groups partition the words whose signature is itself a
    word: no key occurs twice, and for a word list without repeats the
    groups taken together hold each such word once and no other word. *)
Theorem build_Anagrams_partition (words : list str) :
  NoDup words ->
  NoDup (dict_keys (build_Anagrams words (build_Pairs words))) /\
  concat (build_Anagrams words (build_Pairs words)).*2
  ≡ₚ filter (fun w => signature w ∈ words) words.
Proof.
  intros Hnd. split.
  - apply fold_anagrams_keys. constructor.
  - unfold build_Anagrams. rewrite fold_anagrams_concat. cbn [fmap list_fmap concat app].
    by rewrite (build_Pairs_fresh words Hnd), filter_pairs_words.
Qed.

Lemma build_Anagrams_partition_mDictionary :
  NoDup (dict_keys Anagrams) /\
  concat Anagrams.*2 ≡ₚ filter (fun w => signature w ∈ mDictionary) mDictionary.
Proof.
  apply (build_Anagrams_partition mDictionary).
  apply (bool_decide_unpack _). vm_compute. exact I.
Defined.

End AnagramExtra.

(** ** The documentation updater: listing, description, pattern *)

Module UpdateExtra.
Import Py PyFacts FindFacts UpdateDocumentation TextFacts UpdateFacts LinkFacts MainFacts.
#[local] Opaque u repeat_str.

Section Stable.
Context {A K : Type} `{EqDecision K} (key : A -> K) (leb : K -> K -> bool).
Hypothesis leb_refl : forall k, leb k k = true.

Lemma insert_by_filter (x : A) (l : list A) (k : K) :
  filter (fun y => key y = k) (insert_by key leb x l)
  = filter (fun y => key y = k) (x :: l).
Proof.
  induction l as [|y l IH]; [done|]. cbn [insert_by].
  destruct (leb (key x) (key y)) eqn:Hxy; [done|].
  rewrite filter_cons, IH, !filter_cons.
  destruct (decide (key y = k)) as [Hy|Hy], (decide (key x = k)) as [Hx|Hx];
    try done.
  rewrite Hx, Hy, leb_refl in Hxy. done.
Qed.

Lemma sorted_by_filter (l : list A) (k : K) :
  filter (fun y => key y = k) (sorted_by key leb l) = filter (fun y => key y = k) l.
Proof.
  induction l as [|x l IH]; [done|]. cbn [sorted_by].
  by rewrite insert_by_filter, !filter_cons, IH.
Qed.

End Stable.

Section Listing.
Context `{Host}.

Lemma listing_names (w : World) :
  List.map fst (get_all_source_files w)
  = sorted_by lower str_leb (glob w (u ".cpp") ++ glob w (u ".cppm")).
Proof.
  unfold get_all_source_files. rewrite map_map. cbn [fst]. apply map_id.
Qed.


(** X6.  The sort of the listing is stable: names with the same
    lower-cased form keep the order in which the two globs found them. *)
Theorem get_all_source_files_stable (w : World) (k : str) :
  filter (fun f => lower f = k) (List.map fst (get_all_source_files w))
  = filter (fun f => lower f = k) (glob w (u ".cpp") ++ glob w (u ".cppm")).
Proof. rewrite listing_names. apply sorted_by_filter, str_leb_refl. Qed.

(** X7.  [extract_file_description] never raises, never returns an empty
    description and leaves the files and standard output as they are.
    For a file that can be read it returns what the scan of its text
    found, the default description standing in for an empty one, and the
    state is unchanged.  For a file that is not there, or is there and
    cannot be read, it returns the description [C++ example file] with no
    key items and writes one warning line, which names the path and the
    error, to the error stream. *)
Theorem extract_file_description_total (filepath : Path) (w : World) :
  exists d k w',
    extract_file_description filepath w = (Ok (d, k), w') /\
    d <> [] /\ same_files w w' /\ stdout w' = stdout w /\
    (forall entries f text,
       src_dir w = Some entries -> dict_get entries filepath = Some f ->
       file_text f = Some text ->
       w' = w /\ k = (scan_source (hash_seed w) text).2 /\
       (d = (scan_source (hash_seed w) text).1 \/
        (scan_source (hash_seed w) text).1 = [] /\
        d = u "Modern C++ example demonstrating various features")) /\
    ((forall entries, src_dir w = Some entries -> dict_get entries filepath = None) ->
     d = u "C++ example file" /\ k = [] /\
     stderr w' = stderr w
                 ++ [read_warning filepath (FileNotFoundError (path_str filepath))]) /\
    (forall entries msg,
       src_dir w = Some entries ->
       dict_get entries filepath = Some (Unreadable msg) ->
       d = u "C++ example file" /\ k = [] /\
       stderr w' = stderr w ++ [read_warning filepath (OtherError msg)]).
Proof.
  destruct (acts_run _ _ _ (acts_extract_file_description filepath w))
    as (res & r & t & out & err & Hrun & -> & -> & -> & -> & d & k & -> & Hd & Hok & Hraise).
  exists d, k, (touch (readme w) (template w) [] (read_warnings w [filepath]) w).
  split; [exact Hrun|]. split; [done|]. split; [apply same_files_printed|].
  split; [cbn; by rewrite app_nil_r|].
  unfold read_warnings in *. cbn [flat_map] in *. rewrite app_nil_r. split; [|split].
  - intros entries f text Hsrc Hf Htext.
    assert (read_text (path_str filepath) (source_file w filepath) = Ok text) as Hread.
    { unfold source_file. rewrite Hsrc, Hf. by destruct f; cbn in *; try injection Htext as ->. }
    rewrite Hread. split; [apply touch_same, same_files_refl|]. by apply Hok.
  - intros Hnone.
    assert (read_text (path_str filepath) (source_file w filepath)
            = Raise (FileNotFoundError (path_str filepath))) as Hread.
    { unfold source_file. destruct (src_dir w) as [entries|]; [|done].
      by rewrite (Hnone entries eq_refl). }
    rewrite Hread. destruct (Hraise _ Hread) as [-> ->]. done.
  - intros entries msg Hsrc Hf.
    assert (read_text (path_str filepath) (source_file w filepath)
            = Raise (OtherError msg)) as Hread.
    { unfold source_file. by rewrite Hsrc, Hf. }
    rewrite Hread. destruct (Hraise _ Hread) as [-> ->]. done.
Qed.

(** X8.  [findall] with the link pattern returns exactly the names that
    occur in the text between square brackets and consist of one or more
    word characters followed by [.cpp] or [.cppm]. *)
Theorem findall_links_exact (c f : str) :
  f ∈ findall_links c <-> linkable f /\ bracketed c f.
Proof. apply findall_links_spec. Qed.

(** X9.  With a README that can be read, [check_new_files] changes
    nothing and returns, in strictly increasing code point order, the
    listed source names that the pattern does not find in the text of the
    README.  Without a README, or with one that cannot be read, it returns
    the empty list, writes one warning to the error stream and touches no
    file. *)
Theorem check_new_files_result (w : World) :
  (forall c, readme_text w = Some c ->
     exists l, check_new_files w = (Ok l, w) /\
               StronglySorted str_lt l /\
               forall f, f ∈ l <-> source_name w f /\ f ∉ findall_links c) /\
  (readme w = None ->
     (check_new_files w).1 = Ok [] /\
     reported w (u "Warning: Could not check for new files: "
                 ++ str_of_exn unicode_printable (FileNotFoundError readme_str))
              (check_new_files w).2) /\
  (forall msg, readme w = Some (Unreadable msg) ->
     (check_new_files w).1 = Ok [] /\
     reported w (u "Warning: Could not check for new files: " ++ msg)
              (check_new_files w).2).
Proof.
  split; [|split].
  - intros c Hr. destruct (check_new_files_spec w c Hr) as (l & Heq & Hs & Hl).
    exists l. do 2 (split; [done|]). intros f. rewrite Hl.
    by rewrite findall_links_spec.
  - intros Hr.
    rewrite (check_new_files_unread w (FileNotFoundError readme_str))
      by (by rewrite Hr).
    split; [done|]. apply reported_touch.
  - intros msg Hr.
    rewrite (check_new_files_unread w (OtherError msg)) by (by rewrite Hr).
    split; [done|]. apply reported_touch.
Qed.

End Listing.
End UpdateExtra.


(** ** The documentation updater: the generated section *)

Module SectionExtra.
Import Py PyFacts FindFacts UpdateDocumentation TextFacts UpdateFacts LinkFacts MainFacts.
#[local] Opaque u repeat_str.

Lemma occurs_app (a b c m : str) : occurs b m -> occurs (a ++ b ++ c) m.
Proof.
  intros (k & pre & post & -> & _). exists (length (a ++ pre)), (a ++ pre), (post ++ c).
  split; [|done]. by rewrite <- !app_assoc.
Qed.

Lemma occurs_self (m : str) : occurs m m.
Proof. exists 0%nat, [], []. split; [|done]. by rewrite app_nil_r. Qed.

Lemma occurs_inside (a m c : str) : occurs (a ++ m ++ c) m.
Proof. apply occurs_app, occurs_self. Qed.

Lemma occurs_trans (s m x : str) : occurs s m -> occurs m x -> occurs s x.
Proof.
  intros (k & pre & post & -> & _) Hx. by apply occurs_app.
Qed.

Lemma join_occurs (sep p : str) (parts : list str) :
  p ∈ parts -> occurs (join sep parts) p.
Proof.
  induction parts as [|q parts IH]; [by intros ?%elem_of_nil|].
  rewrite join_cons. intros [->|Hin]%elem_of_cons.
  - apply (occurs_app []), occurs_self.
  - destruct parts as [|r parts]; [by apply elem_of_nil in Hin|].
    apply (occurs_app (q ++ sep) _ [] p) in IH; [|done].
    by rewrite app_nil_r, <- app_assoc in IH.
Qed.

Lemma entry_line_bracketed (n : nat) (f : str) : bracketed (entry_line n f) f.
Proof.
  exists (length (str_of_nat n ++ u ". **")), (str_of_nat n ++ u ". **"),
    (u "(" ++ (u "src/" ++ f) ++ u ")**").
  split; [|done]. unfold entry_line.
  change (u ". **[") with (u ". **" ++ [91%N]).
  change (u "](") with ([93%N] ++ u "(").
  by rewrite <- !app_assoc.
Qed.

Lemma has_line_occurs (text l : str) : has_line text l -> occurs text l.
Proof.
  intros (before & after & ->). apply join_occurs.
  rewrite !elem_of_app, list_elem_of_singleton. auto.
Qed.

Section Generated.
Context `{Host}.

Lemma new_section_start (w : World) : start_marker ++ nl `prefix_of` new_section w.
Proof.
  destruct (new_section_lines w) as (output & -> & Hpre & _).
  eapply join_prefix. exact Hpre.
Qed.

Lemma new_section_has_line (w : World) (i : nat) (f : str) (p : Path) :
  get_all_source_files w !! i = Some (f, p) ->
  has_line (new_section w) (entry_line (S i) f).
Proof.
  intros Hi. destruct (new_section_lines w) as (output & -> & _ & Hlines & _).
  destruct (Hlines i f p Hi) as (before & after & ->). by exists before, after.
Qed.

Lemma generate_alphabetical_section_run (w : World) :
  generate_alphabetical_section w
  = (Ok (new_section w), touch (readme w) (template w) [] (source_warnings w) w).
Proof.
  destruct (acts_run _ _ _ (acts_generate_alphabetical_section w))
    as (res & r & t & out & err & Hrun & -> & -> & -> & -> & ->).
  exact Hrun.
Qed.

(** X10.  [generate_alphabetical_section] never raises and touches no
    file and not the standard output.  It writes to the error stream one
    warning for each listed source that cannot be read, in the order of
    the listing, and nothing else: when every listed source can be read
    it leaves the world as it is.  Its text begins with the start marker
    on a line of its own. *)
Theorem generate_alphabetical_section_begins (w : World) :
  (generate_alphabetical_section w).1 = Ok (new_section w) /\
  warned w (source_warnings w) (generate_alphabetical_section w).2 /\
  (source_warnings w = [] <->
   forall f p, (f, p) ∈ get_all_source_files w ->
     exists text, read_text (path_str p) (source_file w p) = Ok text) /\
  (source_warnings w = [] ->
   generate_alphabetical_section w = (Ok (new_section w), w)) /\
  start_marker ++ nl `prefix_of` new_section w.
Proof.
  rewrite generate_alphabetical_section_run. cbn [fst snd].
  split; [done|]. split; [apply warned_touch|]. split; [|split].
  - unfold source_warnings. rewrite read_warnings_readable. split.
    + intros Hall f p Hin. apply Hall. apply list_elem_of_fmap. by exists (f, p).
    + intros Hall p [[f p'] [-> Hin]]%list_elem_of_fmap. by apply (Hall f).
  - intros ->. f_equal. apply touch_same, same_files_refl.
  - apply new_section_start.
Qed.

(** X11.  The generated section links every listed source file: the
    file at position [i] of the listing, counted from 0, has the entry
    line numbered [i + 1] as a line of the section, and so the section
    holds the file name between square brackets. *)
Theorem generate_alphabetical_section_links (w : World) (i : nat) (f : str) (p : Path) :
  get_all_source_files w !! i = Some (f, p) ->
  has_line (new_section w) (entry_line (S i) f) /\ bracketed (new_section w) f.
Proof.
  intros Hi. pose proof (new_section_has_line w i f p Hi) as Hline.
  split; [exact Hline|].
  eapply occurs_trans; [by apply has_line_occurs|apply entry_line_bracketed].
Qed.

End Generated.

Lemma generate_alphabetical_section_links_sample :
  has_line (@new_section ascii_host sample_world) (entry_line 1 (u "Alpha.cpp")) /\
  bracketed (@new_section ascii_host sample_world) (u "Alpha.cpp").
Proof.
  apply (@generate_alphabetical_section_links ascii_host sample_world 0
           (u "Alpha.cpp") (u "Alpha.cpp")).
  vm_compute. reflexivity.
Defined.

End SectionExtra.

(** ** The documentation updater: the letter headings of the section *)

Module HeadingExtra.
Import Py PyFacts FindFacts UpdateDocumentation TextFacts UpdateFacts LinkFacts MainFacts.
Import SectionExtra.
#[local] Opaque u repeat_str.

(** X12.  The generated section holds, for every listed source file, the
    heading [### L] of the letter [L] its name begins with, in upper
    case. *)
Theorem generate_alphabetical_section_headings `{Host} (w : World) (c : char)
    (r : str) (p : Path) :
  (c :: r, p) ∈ get_all_source_files w ->
  occurs (new_section w) (heading_line (upper [c])).
Proof.
  intros Hf. destruct (new_section_lines w) as (output & -> & _ & _ & Hheads).
  apply join_occurs. by apply (Hheads c r p).
Qed.

Lemma generate_alphabetical_section_headings_sample :
  occurs (@new_section ascii_host sample_world) (heading_line (u "A")).
Proof.
  apply (@generate_alphabetical_section_headings ascii_host sample_world
           65%N (u "lpha.cpp") (u "Alpha.cpp")).
  apply (bool_decide_unpack _). vm_compute. exact I.
Defined.

End HeadingExtra.

(** ** The documentation updater: rewriting the README *)

Module ReadmeExtra.
Import Py PyFacts FindFacts UpdateDocumentation TextFacts UpdateFacts LinkFacts MainFacts.
Import SectionExtra.
#[local] Opaque u repeat_str.

Ltac slia := unfold char in *; lia.

(** An occurrence, character by character. *)
Lemma occurs_at_lookup (s m : list N) (i : nat) :
  occurs_at s m i <->
  (i <= length s)%nat /\ forall k, (k < length m)%nat -> s !! (i + k)%nat = m !! k.
Proof.
  split.
  - intros (pre & post & -> & <-). split; [rewrite length_app; lia|].
    intros k Hk. rewrite (lookup_app_r pre) by lia.
    replace (length pre + k - length pre)%nat with k by lia.
    by rewrite lookup_app_l.
  - intros [Hi Hk].
    assert (take (length m) (drop i s) = m) as Hm.
    { apply list_eq. intros k. destruct (decide (k < length m)%nat) as [Hlt|Hge].
      - rewrite lookup_take_lt by done. rewrite lookup_drop. by apply Hk.
      - rewrite lookup_take_ge by lia. symmetry. apply lookup_ge_None_2. lia. }
    exists (take i s), (drop (length m) (drop i s)). split.
    + rewrite <- Hm at 1. by rewrite !take_drop.
    + rewrite length_take. unfold char. lia.
Qed.

Lemma occurs_at_agree (p x y m : list N) (j : nat) :
  occurs_at (p ++ x) m j -> (j + length m <= length p)%nat -> occurs_at (p ++ y) m j.
Proof.
  rewrite !occurs_at_lookup. intros [_ Hk] Hj. split; [rewrite length_app; lia|].
  intros k Hlt. rewrite lookup_app_l by lia. rewrite <- (Hk k Hlt).
  by rewrite lookup_app_l by lia.
Qed.

Lemma occurs_at_split (c m : list N) (k : nat) :
  occurs_at c m k -> exists post, c = take k c ++ m ++ post /\ drop k c = m ++ post.
Proof.
  intros (pre & post & -> & <-). exists post.
  by rewrite take_app_length, drop_app_length.
Qed.

(** The first start marker stays where it is when the text from it on is
    replaced by a text that begins with the marker. *)
Lemma first_start_kept (c m rest : list N) (s : nat) :
  first_occurrence c m s -> first_occurrence (take s c ++ m ++ rest) m s.
Proof.
  intros [Hs Hmin]. pose proof (occurs_at_length _ _ _ Hs) as Hlen.
  destruct (occurs_at_split c m s Hs) as (post & Hc & _). split.
  - exists (take s c), rest. split; [done|]. rewrite length_take. slia.
  - intros j Hj. destruct (decide (s <= j)%nat) as [|Hlt]; [done|].
    apply Hmin. rewrite Hc.
    rewrite app_assoc in Hj |- *.
    apply (occurs_at_agree _ rest); [exact Hj|].
    rewrite length_app, length_take. slia.
Qed.

Lemma end_marker_no_newline : 10%N ∉ end_marker.
Proof. apply (bool_decide_unpack _). vm_compute. exact I. Qed.

Lemma end_marker_shorter : (length end_marker <= length start_marker)%nat.
Proof. vm_compute. slia. Qed.

Lemma separator_no_hash (i : nat) : (separator : list N) !! i <> Some 35%N.
Proof.
  do 6 (destruct i as [|i]; [vm_compute; discriminate|]).
  vm_compute. discriminate.
Qed.

Lemma separator_head : (separator : list N) !! 0%nat = Some 10%N.
Proof. vm_compute. reflexivity. Qed.

Lemma end_marker_head : (end_marker : list N) !! 0%nat = Some 35%N.
Proof. vm_compute. reflexivity. Qed.

(** The first end marker after the replacement is the one the old text
    had, when the start marker came first and the new section does not
    hold the end marker itself. *)
Lemma first_end_kept (c section : list N) (s e : nat) :
  occurs_at c start_marker s -> first_occurrence c end_marker e -> (s <= e)%nat ->
  start_marker `prefix_of` section -> ~ occurs section end_marker ->
  first_occurrence (take s c ++ section ++ separator ++ drop e c) end_marker
    (s + length section + length separator).
Proof.
  intros Hs [He Hmin] Hse [rest ->] Hno.
  pose proof (occurs_at_length _ _ _ Hs) as Hlen.
  destruct (occurs_at_split c start_marker s Hs) as (post & Hc & _).
  destruct (occurs_at_split c end_marker e He) as (post' & _ & ->).
  set (section := start_marker ++ rest) in *.
  assert (length (take s c) = s) as Hts by (rewrite length_take; slia).
  split.
  - exists (take s c ++ section ++ separator), post'.
    split; [by rewrite <- !app_assoc|]. rewrite !length_app. slia.
  - intros j Hj.
    destruct (decide (s + length section + length separator <= j)%nat) as [|Hlt]; [done|].
    exfalso. apply occurs_at_lookup in Hj as [_ Hj].
    destruct (decide (j < s)%nat) as [Hjs|Hjs].
    { (* in front of the section: an occurrence of the old text *)
      assert (occurs_at c end_marker j) as Hold.
      - rewrite Hc, app_assoc.
        apply (occurs_at_agree _ (rest ++ separator ++ end_marker ++ post')).
        + apply occurs_at_lookup. split.
          * rewrite !length_app. slia.
          * intros k Hk. rewrite <- (Hj k Hk). unfold section.
            by rewrite <- !app_assoc.
        + pose proof end_marker_shorter. rewrite length_app. slia.
      - apply Hmin in Hold. slia. }
    destruct (decide (j + length end_marker <= s + length section)%nat) as [Hin|Hout].
    { (* inside the section *)
      apply Hno. exists (j - s)%nat. apply occurs_at_lookup. split; [slia|].
      intros k Hk. rewrite <- (Hj k Hk).
      rewrite lookup_app_r by slia. rewrite lookup_app_l by slia.
      f_equal. slia. }
    destruct (decide (j <= s + length section)%nat) as [Hle|Hgt].
    { (* across the newline that ends the section *)
      apply end_marker_no_newline.
      apply (list_elem_of_lookup_2 _ (s + length section - j)%nat).
      rewrite <- Hj by slia.
      replace (j + (s + length section - j))%nat with (s + length section)%nat by slia.
      rewrite lookup_app_r by slia. rewrite lookup_app_r by slia.
      match goal with |- _ !! ?i = _ => replace i with 0%nat by slia end.
      pose proof separator_head as Hh.
      destruct separator; [done|]. exact Hh. }
    (* inside the separator *)
    assert (0 < length end_marker)%nat as Hpos by (vm_compute; slia).
    specialize (Hj 0%nat Hpos). rewrite end_marker_head, Nat.add_0_r in Hj.
    rewrite lookup_app_r in Hj by slia. rewrite lookup_app_r in Hj by slia.
    rewrite lookup_app_l in Hj by slia.
    exact (separator_no_hash _ Hj).
Qed.

Section Rewriting.
Context `{Host}.

(** The generated section is a function of [src/] and of the hash seed
    alone. *)
Lemma glob_src (w w' : World) (ext : str) :
  src_dir w' = src_dir w -> glob w' ext = glob w ext.
Proof. intros Hs. unfold glob. by rewrite Hs. Qed.

Lemma get_all_source_files_src (w w' : World) :
  src_dir w' = src_dir w -> get_all_source_files w' = get_all_source_files w.
Proof. intros Hs. unfold get_all_source_files. by rewrite !(glob_src w w' _ Hs). Qed.

Lemma source_name_src (w w' : World) (f : str) :
  src_dir w' = src_dir w -> source_name w' f <-> source_name w f.
Proof. intros Hs. unfold source_name. by rewrite !(glob_src w w' _ Hs). Qed.

Lemma acts_sources {A} (m : M World A) (w : World)
    (Q : result A -> option file -> option file -> list str -> list str -> Prop) :
  acts m w Q -> src_dir (m w).2 = src_dir w /\ hash_seed (m w).2 = hash_seed w.
Proof.
  intros (res & r & t & out & err & Hm & _). by rewrite (Hm w (same_files_refl w)).
Qed.

Lemma extract_file_description_src (w w' : World) (p : Path) :
  src_dir w' = src_dir w -> hash_seed w' = hash_seed w ->
  (extract_file_description p w').1 = (extract_file_description p w).1.
Proof.
  intros Hs Hseed.
  unfold extract_file_description, bind, try_except, read_source, source_file, get, ret,
    eprint, modify.
  rewrite Hs, Hseed. cbn [fst snd].
  destruct (read_text _ _) as [text|e]; [done|]. by destruct (is_Exception e).
Qed.

Lemma section_entry_src (w w' : World) (st : list str * option str * nat)
    (file : str * Path) :
  src_dir w' = src_dir w -> hash_seed w' = hash_seed w ->
  (section_entry st file w').1 = (section_entry st file w).1 /\
  src_dir (section_entry st file w').2 = src_dir (section_entry st file w).2 /\
  hash_seed (section_entry st file w').2 = hash_seed (section_entry st file w).2.
Proof.
  intros Hs Hseed. destruct st as [[output current] number], file as [f p].
  pose proof (extract_file_description_src w w' p Hs Hseed) as Hres.
  destruct (acts_sources _ _ _ (acts_extract_file_description p w)) as [Hs1 Hseed1].
  destruct (acts_sources _ _ _ (acts_extract_file_description p w')) as [Hs2 Hseed2].
  unfold section_entry, bind, first_char. destruct f as [|c f]; cbn [raise ret].
  { done. }
  destruct (extract_file_description p w) as [[[d k]|e] w1],
           (extract_file_description p w') as [[[d' k']|e'] w1'];
    cbn [fst snd] in *; try discriminate.
  - injection Hres as -> ->. split; [done|]. split; cbn; congruence.
  - injection Hres as ->. split; [done|]. split; cbn; congruence.
Qed.

Lemma section_loop_src (files : list (str * Path)) (w w' : World)
    (st : list str * option str * nat) :
  src_dir w' = src_dir w -> hash_seed w' = hash_seed w ->
  (section_loop files st w').1 = (section_loop files st w).1.
Proof.
  revert w w' st. induction files as [|file files IH]; intros w w' st Hs Hseed; [done|].
  destruct (section_entry_src w w' st file Hs Hseed) as (Hres & Hs1 & Hseed1).
  cbn [section_loop]. unfold bind.
  destruct (section_entry st file w) as [[st1|e] w1],
           (section_entry st file w') as [[st1'|e'] w1'];
    cbn [fst snd] in *; try discriminate.
  - injection Hres as ->. by apply IH.
  - exact Hres.
Qed.

Lemma new_section_src (w w' : World) :
  src_dir w' = src_dir w -> hash_seed w' = hash_seed w ->
  new_section w' = new_section w.
Proof.
  intros Hs Hseed.
  unfold new_section, generate_alphabetical_section, bind, get. cbv zeta.
  rewrite (get_all_source_files_src w w' Hs).
  match goal with
  | |- context [section_loop ?files ?st w] =>
      pose proof (section_loop_src files w w' st Hs Hseed) as Heq;
      destruct (section_loop files st w) as [[st1|e1] w1],
               (section_loop files st w') as [[st2|e2] w2]
  end; cbn [fst snd] in *; try discriminate; [|done].
  by injection Heq as ->.
Qed.

Lemma source_name_bracketed (w : World) (f : str) :
  source_name w f -> bracketed (new_section w) f.
Proof.
  intros Hf. assert ((f, f) ∈ get_all_source_files w) as Hin
    by by apply get_all_source_files_elem_of.
  apply list_elem_of_lookup in Hin as [i Hi].
  eapply occurs_trans; [|apply entry_line_bracketed].
  apply has_line_occurs. by apply (new_section_has_line w i f f).
Qed.

Lemma linkable_no_line_end (f : str) :
  linkable f ->
  (10%N ∉ [91%N] ++ f ++ [93%N]) /\ (13%N ∉ [91%N] ++ f ++ [93%N]).
Proof.
  intros (stem & _ & Hword & Hf).
  assert (forall c, c ∈ stem -> c <> 10%N /\ c <> 13%N) as Hstem.
  { intros c Hc. rewrite Forall_forall in Hword. specialize (Hword c Hc).
    split; intros ->; by vm_compute in Hword. }
  assert (forall c, c ∈ f -> c <> 10%N /\ c <> 13%N) as Hname.
  { intros c Hc. destruct Hf as [-> | ->];
      apply elem_of_app in Hc as [Hc|Hc]; try (by apply Hstem);
      vm_compute in Hc; split; intros ->;
      repeat (apply elem_of_cons in Hc as [[=]|Hc]); by apply elem_of_nil in Hc. }
  split; intros Hin;
    apply elem_of_cons in Hin as [[=]|Hin];
    apply elem_of_app in Hin as [Hin|Hin];
    try (apply Hname in Hin as [? ?]; done);
    by apply list_elem_of_singleton in Hin.
Qed.



(** X14.  After a successful [update_readme], [check_new_files] reports
    exactly the listed source files whose names the link pattern cannot
    match: every file with a stem of word characters is found in the
    rewritten README, whatever the README held before. *)
Theorem check_new_files_after_update (w : World) (raw : str) :
  readme w = Some (Text raw) -> has_markers (universal_newlines raw) ->
  exists l,
    check_new_files (update_readme w).2 = (Ok l, (update_readme w).2) /\
    forall f, f ∈ l <-> source_name w f /\ ~ linkable f.
Proof.
  intros Hr Hm. pose proof Hm as (s & e & Hs & He)%has_markers_first.
  rewrite (update_readme_found w raw s e Hr Hs He). cbn [snd].
  match goal with
  | |- context [touch (Some (Text (write_newlines linesep ?text))) ?t ?out ?err w] =>
      set (w1 := touch (Some (Text (write_newlines linesep text))) t out err w);
      destruct (check_new_files_spec w1 (universal_newlines (write_newlines linesep text)))
        as (l & Hl & _ & Hmem); [done|]
  end.
  exists l. split; [exact Hl|]. intros f.
  rewrite Hmem, (source_name_src w w1 f eq_refl). split.
  - intros [Hf Hnot]. split; [exact Hf|]. intros Hlink. apply Hnot.
    split; [exact Hlink|]. destruct (linkable_no_line_end f Hlink) as [Hlf Hcr].
    apply occurs_read_back; [done|done|done|].
    apply occurs_app. by apply source_name_bracketed.
  - intros [Hf Hnot]. split; [exact Hf|]. intros [Hlink _]. exact (Hnot Hlink).
Qed.

(** X15.  [update_readme] is idempotent on a README whose start marker
    comes before its end marker, as long as the generated section holds
    neither the end marker nor a carriage return, and the second run
    generates the section the first run generated: it runs over the same
    [src/] under the same hash seed.  The second run succeeds and writes
    what the first run wrote. *)
Theorem update_readme_idempotent (w w1 : World) (raw : str) (s e : nat) :
  readme w = Some (Text raw) ->
  first_occurrence (universal_newlines raw) start_marker s ->
  first_occurrence (universal_newlines raw) end_marker e ->
  (s <= e)%nat -> ~ occurs (new_section w) end_marker -> 13%N ∉ new_section w ->
  src_dir w1 = src_dir w -> hash_seed w1 = hash_seed w ->
  readme w1 = readme (update_readme w).2 ->
  (update_readme w1).1 = Ok true /\
  readme (update_readme w1).2 = readme w1.
Proof.
  intros Hr Hs He Hse Hno Hcr Hsrc Hseed Hreadme.
  rewrite (update_readme_found w raw s e Hr Hs He) in Hreadme.
  cbn [snd readme touch] in Hreadme.
  set (c := universal_newlines raw) in *.
  match type of Hreadme with
  | _ = Some (Text (write_newlines linesep ?text)) => set (c1 := text) in *
  end.
  pose proof (new_section_src w w1 Hsrc Hseed) as Hsec.
  assert (start_marker `prefix_of` new_section w) as Hstart.
  { destruct (new_section_start w) as [rest Hrest]. exists (nl ++ rest).
    by rewrite Hrest, <- app_assoc. }
  assert (length (take s c) = s) as Hts.
  { rewrite length_take. destruct Hs as [Hs%occurs_at_length _]. slia. }
  assert (first_occurrence c1 start_marker s) as Hs1.
  { unfold c1. destruct Hstart as [rest Hrest]. rewrite Hrest, <- app_assoc.
    by apply first_start_kept. }
  assert (first_occurrence c1 end_marker (s + length (new_section w) + length separator))
    as He1.
  { unfold c1. apply first_end_kept; [by destruct Hs|done..]. }
  assert (universal_newlines (write_newlines linesep c1) = c1) as Hback.
  { apply read_back. unfold c1. rewrite !elem_of_app. intros [Hin|[Hin|[Hin|Hin]]].
    - apply (subseteq_take s c) in Hin. by apply universal_newlines_no_cr in Hin.
    - by apply Hcr.
    - vm_compute in Hin. repeat (apply elem_of_cons in Hin as [[=]|Hin]).
      by apply elem_of_nil in Hin.
    - apply (subseteq_drop e c) in Hin. by apply universal_newlines_no_cr in Hin. }
  rewrite <- Hback in Hs1, He1.
  rewrite (update_readme_found w1 _ _ _ Hreadme Hs1 He1). cbn [fst snd readme touch].
  split; [done|]. rewrite Hreadme, Hback, Hsec. do 3 f_equal. unfold c1.
  rewrite take_app_le by slia. rewrite take_ge by slia.
  do 3 f_equal.
  rewrite !app_assoc. rewrite drop_app_length'; [done|].
  rewrite !length_app. slia.
Qed.

End Rewriting.

Lemma check_new_files_after_update_sample :
  exists l,
    @check_new_files ascii_host (@update_readme ascii_host sample_world).2
      = (Ok l, (@update_readme ascii_host sample_world).2) /\
    forall f, f ∈ l <-> source_name sample_world f /\ ~ @linkable ascii_host f.
Proof.
  apply (@check_new_files_after_update ascii_host sample_world sample_readme).
  - reflexivity.
  - apply (proj2 (@has_markers_first (universal_newlines sample_readme))).
    exists 11%nat, 78%nat.
    split; apply first_occurrence_find; vm_compute; reflexivity.
Defined.

Lemma update_readme_idempotent_sample :
  let w1 := (@update_readme ascii_host sample_world).2 in
  (@update_readme ascii_host w1).1 = Ok true /\
  readme (@update_readme ascii_host w1).2 = readme w1.
Proof.
  apply (@update_readme_idempotent ascii_host sample_world
           (@update_readme ascii_host sample_world).2 sample_readme 11 78).
  - reflexivity.
  - apply first_occurrence_find. vm_compute. reflexivity.
  - apply first_occurrence_find. vm_compute. reflexivity.
  - lia.
  - apply find_absent. vm_compute. reflexivity.
  - apply (bool_decide_unpack _). vm_compute. exact I.
  - reflexivity.
  - reflexivity.
  - reflexivity.
Defined.

End ReadmeExtra.

(** ** The documentation updater: the index template and [main] *)

Module MainExtra.
Import Py PyFacts FindFacts UpdateDocumentation TextFacts UpdateFacts LinkFacts MainFacts.
#[local] Opaque u repeat_str.
Local Open Scope py_scope.

Section Effects.
Context `{Host}.

(** X16.  [generate_index_template] never raises and touches no file and
    not the standard output.  It writes to the error stream one warning
    for each new file that cannot be read, in the order of the list, and
    nothing else: when every new file can be read it leaves the world as
    it is.  Its text is empty exactly when there is no new file, and
    otherwise holds the line [- **File:** [f](src/f)] for every new file
    [f]. *)
Theorem generate_index_template_lists (new_files : list str) (w : World) :
  exists text,
    (generate_index_template new_files w).1 = Ok text /\
    warned w (read_warnings w new_files) (generate_index_template new_files w).2 /\
    (text = [] <-> new_files = []) /\
    (forall f, f ∈ new_files -> has_line text (template_file_line f)) /\
    (read_warnings w new_files = [] <->
     forall f, f ∈ new_files ->
       exists content, read_text (path_str f) (source_file w f) = Ok content) /\
    (read_warnings w new_files = [] ->
     (generate_index_template new_files w).2 = w).
Proof.
  destruct (acts_run _ _ _ (acts_generate_index_template new_files w))
    as (res & r & t & out & err & -> & -> & -> & -> & -> & text & -> & Hempty & Hlines).
  exists text. cbn [fst snd]. split; [done|]. split; [apply warned_touch|].
  do 2 (split; [done|]). split; [apply read_warnings_readable|].
  intros ->. apply touch_same, same_files_refl.
Qed.


End Effects.
End MainExtra.

(** ** The smoke test of the native module *)

Module TestPybindExtra.
Import Py TestPybind.
Local Open Scope py_scope.

(** *** What is printed, and when *)

Lemma never_prints_ret {A} (l : line) (a : A) : never_prints l (ret a).
Proof. by intros out Hout. Qed.

Lemma never_prints_raise {A} (l : line) (e : exn) : never_prints l (@raise _ A e).
Proof. by intros out Hout. Qed.

Lemma never_prints_bind {A B} (l : line) (m : M (list line) A)
    (k : A -> M (list line) B) :
  never_prints l m -> (forall a, never_prints l (k a)) -> never_prints l (bind m k).
Proof.
  intros Hm Hk out Hout. specialize (Hm out Hout). unfold bind.
  destruct (m out) as [[a|e] out']; [by apply Hk|done].
Qed.

Lemma never_prints_try_except {A} (l : line) (m : M (list line) A)
    (handles : exn -> bool) (handler : exn -> M (list line) A) :
  never_prints l m -> (forall e, never_prints l (handler e)) ->
  never_prints l (try_except m handles handler).
Proof.
  intros Hm Hh out Hout. specialize (Hm out Hout). unfold try_except.
  destruct (m out) as [[a|e] out']; [done|].
  destruct (handles e); [by apply Hh|done].
Qed.

Lemma never_prints_for_each {A} (l : line) (xs : list A)
    (body : A -> M (list line) unit) :
  (forall x, never_prints l (body x)) -> never_prints l (for_each xs body).
Proof.
  intros Hbody. induction xs as [|x xs IH]; simpl.
  - apply never_prints_ret.
  - apply never_prints_bind; [apply Hbody|by intros _].
Qed.

Lemma never_prints_print (l : line) (s : str) :
  l <> Text s -> never_prints l (print_ s).
Proof.
  intros Hl out Hout. unfold print_, modify. cbn [snd].
  rewrite elem_of_app, list_elem_of_singleton. by intros [?|?].
Qed.

Lemma never_prints_call (env : Env) (l : line) (n : nat) : never_prints l (call env n).
Proof.
  unfold call. destruct (raises env n); [apply never_prints_raise|apply never_prints_ret].
Qed.

Lemma never_prints_foreign (env : Env) (s : str) (n : nat) :
  never_prints (Text s) (print_foreign env n).
Proof.
  unfold print_foreign. apply never_prints_bind; [apply never_prints_call|].
  intros _ out Hout. unfold modify. cbn [snd].
  rewrite elem_of_app, list_elem_of_singleton. by intros [?|?].
Qed.

Lemma never_prints_import (l : line) (outcome : option exn) :
  never_prints l (import_ outcome).
Proof.
  destruct outcome; [apply never_prints_raise|apply never_prints_ret].
Qed.

Ltac other_text :=
  let Heq := fresh in
  intros Heq; apply (f_equal (fun l => match l with Text s => s | Foreign _ => [] end)) in Heq;
  vm_compute in Heq; discriminate Heq.

Ltac solve_never_prints env :=
  repeat first
    [ apply never_prints_ret
    | apply (never_prints_call env)
    | apply (never_prints_foreign env)
    | apply never_prints_import
    | apply never_prints_raise
    | apply never_prints_print; other_text
    | apply never_prints_for_each; intros ?
    | apply never_prints_try_except; [|intros ?]
    | apply never_prints_bind; [|intros ?]
    | match goal with |- never_prints _ (if ?b then _ else _) => destruct b end ].

(** The message is printed by a script that is about to end well. *)
Lemma passed_step {A} (m : M (list line) A) (k : M (list line) unit) :
  never_prints passed_line m ->
  (forall out, passed_line ∉ out -> passed_line ∈ (k out).2 -> (k out).1 = Ok tt) ->
  forall out, passed_line ∉ out ->
    passed_line ∈ (bind m (fun _ => k) out).2 -> (bind m (fun _ => k) out).1 = Ok tt.
Proof.
  intros Hm Hk out Hout. specialize (Hm out Hout). unfold bind.
  destruct (m out) as [[a|e] out']; [by apply Hk|done].
Qed.

Lemma ok_step {A} (m : M (list line) A) (k : M (list line) unit) :
  (forall out, (k out).1 = Ok tt -> passed_line ∈ (k out).2) ->
  forall out, (bind m (fun _ => k) out).1 = Ok tt ->
    passed_line ∈ (bind m (fun _ => k) out).2.
Proof.
  intros Hk out. unfold bind.
  destruct (m out) as [[a|e] out']; [by apply Hk|done].
Qed.

Lemma passed_only_when_ok (env : Env) :
  passed_line ∈ (run env).2 -> (run env).1 = Ok tt.
Proof.
  assert (forall out, passed_line ∉ out ->
            passed_line ∈ (main env out).2 -> (main env out).1 = Ok tt) as Hgen.
  { unfold main.
    do 12 (apply passed_step;
           [unfold simple_functions, stl_containers, classes, inheritance, callbacks,
              sensor_data, numpy_arrays, smart_pointers, sys_exit, passed_line;
            solve_never_prints env|]).
    by intros out _ _. }
  apply Hgen, not_elem_of_nil.
Qed.

Lemma passed_when_ok (env : Env) :
  (run env).1 = Ok tt -> passed_line ∈ (run env).2.
Proof.
  unfold run, main. do 12 apply ok_step.
  intros out _. unfold bind, print_, modify, passed_line. cbn [snd].
  rewrite !elem_of_app, !list_elem_of_singleton. left. by right.
Qed.

(** A run depends on the environment through the two imports, the
    statements of the script and the test at line 200 only. *)
Lemma run_ext (env env' : Env) :
  import_pybind_example env = import_pybind_example env' ->
  import_numpy env = import_numpy env' ->
  (forall k, raises env k = raises env' k) ->
  truth env 200 = truth env' 200 ->
  run env = run env'.
Proof.
  intros Hpe Hnp Hraises Htruth.
  unfold run, main, simple_functions, stl_containers, classes,
    inheritance, callbacks, sensor_data, numpy_arrays, smart_pointers,
    print_foreign, call.
  rewrite Hpe, Hnp, Htruth. rewrite !Hraises. reflexivity.
Qed.

(** The environment in which the statement at line [n] raises [e] and
    every other statement returns. *)
Lemma run_only_raises (env : Env) (n : nat) (e : exn) :
  import_pybind_example env = None -> raises env n = Some e -> only_raises env n ->
  run env = run {| import_pybind_example := None;
                   import_numpy := import_numpy env;
                   raises := fun k => if (k =? n)%nat then Some e else None;
                   truth := fun _ => truth env 200 |}.
Proof.
  intros Hpe Hat Hother. apply run_ext; try done.
  intros k. cbn [raises]. destruct (Nat.eqb_spec k n) as [->|Hk]; [done|by apply Hother].
Qed.

(** An [ImportError] from a statement of the [numpy] section is taken
    for a missing [numpy]. *)
Lemma run_block_ImportError (env : Env) (n : nat) (msg : str) :
  import_pybind_example env = None -> numpy_optional env ->
  n ∈ numpy_block -> raises env n = Some (ImportError msg) -> only_raises env n ->
  (run env).1 = Ok tt.
Proof.
  intros Hpe Hnp Hn Hat Hother.
  rewrite (run_only_raises env n _ Hpe Hat Hother).
  destruct (truth env 200); destruct Hnp as [->|[msg' ->]];
    unfold numpy_block in Hn;
    repeat (apply elem_of_cons in Hn as [->|Hn]);
    try (by apply elem_of_nil in Hn);
    vm_compute; reflexivity.
Qed.

(** An exception from a statement outside the [numpy] section ends the
    script. *)
Lemma run_module_exception (env : Env) (n : nat) (e : exn) :
  import_pybind_example env = None -> numpy_optional env ->
  n ∈ module_lines -> raises env n = Some e -> only_raises env n ->
  (run env).1 = Raise e.
Proof.
  intros Hpe Hnp Hn Hat Hother.
  rewrite (run_only_raises env n _ Hpe Hat Hother).
  destruct (truth env 200); destruct Hnp as [->|[msg' ->]];
    unfold module_lines in Hn;
    repeat (apply elem_of_cons in Hn as [->|Hn]);
    try (by apply elem_of_nil in Hn);
    vm_compute; reflexivity.
Qed.

(** X18.  When [import pybind_example] raises [ImportError] the script
    prints the six lines that tell how to build the module, and nothing
    else, and exits with status 1; any other exception of the import
    leaves the script before it has printed a line. *)
Theorem import_failure_output (env : Env) (e : exn) :
  import_pybind_example env = Some e ->
  (is_ImportError e = true -> run env = (Raise (SystemExit 1), build_hint)) /\
  (is_ImportError e = false -> run env = (Raise e, [])).
Proof.
  intros He. unfold run, main, try_except, bind, import_. rewrite He.
  destruct e; split; intros Hi; try discriminate Hi; reflexivity.
Qed.

Lemma import_failure_output_no_module :
  run no_module = (Raise (SystemExit 1), build_hint).
Proof.
  apply (proj1 (import_failure_output no_module
                  (ImportError (u "No module named 'pybind_example'")) eq_refl)).
  reflexivity.
Defined.

(** X19.  Whatever the collaborators do, the script prints the line
    [ALL TESTS PASSED!] exactly when it runs to its end, and then its
    exit status is 0: no exception, caught or not, lets the message
    through. *)
Theorem passed_iff_completed (env : Env) :
  (passed_line ∈ (run env).2 <-> (run env).1 = Ok tt) /\
  (passed_line ∈ (run env).2 -> status env = 0).
Proof.
  split; [split; [apply passed_only_when_ok|apply passed_when_ok]|].
  intros Hok%passed_only_when_ok. unfold status. by rewrite Hok.
Qed.

(** X20.  The [except ImportError] of the [numpy] section also catches
    an [ImportError] raised by a statement inside the section, a call into
    the native module included: when one statement of the block raises it
    and every other statement returns, the script runs to its end, prints
    [ALL TESTS PASSED!] and exits with status 0. *)
Theorem numpy_block_hides_ImportError (env : Env) (n : nat) (msg : str) :
  import_pybind_example env = None -> numpy_optional env ->
  n ∈ numpy_block -> raises env n = Some (ImportError msg) -> only_raises env n ->
  status env = 0 /\ passed_line ∈ (run env).2.
Proof.
  intros Hpe Hnp Hn Hat Hother.
  pose proof (run_block_ImportError env n msg Hpe Hnp Hn Hat Hother) as Hok.
  split; [unfold status; by rewrite Hok|by apply passed_when_ok].
Qed.

Lemma numpy_block_hides_ImportError_sample :
  status numpy_call_fails = 0 /\ passed_line ∈ (run numpy_call_fails).2.
Proof.
  apply (numpy_block_hides_ImportError numpy_call_fails 181
           (u "numpy.core.multiarray failed to import")).
  - reflexivity.
  - left. reflexivity.
  - apply (bool_decide_unpack _). vm_compute. exact I.
  - reflexivity.
  - intros k Hk. unfold numpy_call_fails, raises.
    destruct (Nat.eqb_spec k 181) as [Heq|_]; [destruct (Hk Heq)|reflexivity].
Defined.

(** X21.  An exception raised by a statement outside the [numpy]
    section, an [ImportError] included, is not caught: when every other
    statement returns, the run ends with that exception, the exit status
    is 1 and [ALL TESTS PASSED!] is not printed. *)
Theorem module_exception_ends_script (env : Env) (n : nat) (e : exn) :
  import_pybind_example env = None -> numpy_optional env ->
  n ∈ module_lines -> raises env n = Some e -> only_raises env n ->
  is_Exception e = true ->
  (run env).1 = Raise e /\ status env = 1 /\ passed_line ∉ (run env).2.
Proof.
  intros Hpe Hnp Hn Hat Hother He.
  pose proof (run_module_exception env n e Hpe Hnp Hn Hat Hother) as Hrun.
  split; [exact Hrun|]. split.
  - unfold status. rewrite Hrun. by destruct e.
  - intros Hin%passed_only_when_ok. congruence.
Qed.

Lemma module_exception_ends_script_stale :
  (run stale_module).1
    = Raise (OtherError (u "module 'pybind_example' has no attribute 'add'")) /\
  status stale_module = 1 /\ passed_line ∉ (run stale_module).2.
Proof.
  apply (module_exception_ends_script stale_module 32).
  - reflexivity.
  - left. reflexivity.
  - apply (bool_decide_unpack _). vm_compute. exact I.
  - reflexivity.
  - intros k Hk. unfold stale_module, raises.
    destruct (Nat.eqb_spec k 32) as [Heq|_]; [destruct (Hk Heq)|reflexivity].
  - reflexivity.
Defined.

End TestPybindExtra.
